(** * Orchestrator / gateway worker: a shallow embedding of [worker/index.ts],
    [worker/push-utils.ts], [worker/auth.ts] and [worker/audit-logger.ts].

    Conventions of the embedding.
    - JavaScript numbers that carry counts, ids, status codes and timestamps
      are integers of [Z], printed in decimal as the runtime prints an
      integer below 10^21; a value that [Number.isFinite] refuses is the
      [None] of an [option Z].
    - Strings are [string]; a character stands for one byte of the UTF-8
      form, which is what [toUtf8Bytes] hands to the hash.
    - A promise that rejects (an exception) is the [Rejected] of [outcome].
    - Library calls whose result the worker only consumes (keccak256,
      [verifyMessage], the AES-GCM cipher, the ledger, the imaging servers)
      are variables of the section that uses them. *)

From Stdlib Require Import ZArith List Lia Bool Ascii String.
From stdpp Require Import base option list sorting gmap strings pretty.

Set Warnings "-register-all".

Local Open Scope Z_scope.

(** The two ways an awaited call can end. *)
Inductive outcome (T E : Type) : Type :=
  | Resolved (v : T)
  | Rejected (e : E).
Arguments Resolved {T E} v.
Arguments Rejected {T E} e.

(** ** Bounded retry with exponential backoff ([performWithRetry]) *)

Module Retry.
Section Loop.
Context {W T E : Type}.
(** One invocation of [fn] in world [w]. *)
Variable fn : W -> outcome T E * W.
(** [await sleep(ms)]. *)
Variable sleep : Z -> W -> W.
Variables attempts backoffMs : Z.

(** The [for] loop, by the number [n] of iterations still to run; [attempt]
  is the loop variable and [lastErr] the error kept for the final throw
  ([None] is the initial [undefined]). *)
Fixpoint loop (n : nat) (attempt : Z) (lastErr : option E) (w : W)
  : outcome T (option E) * W :=
  match n with
  | O => (Rejected lastErr, w)
  | S n' =>
    match fn w with
    | (Resolved v, w1) => (Resolved v, w1)
    | (Rejected error, w1) =>
        let w2 :=
          if attempt <? attempts
          then sleep (backoffMs * 2 ^ (attempt - 1)) w1
          else w1 in
        loop n' (attempt + 1) (Some error) w2
    end
  end.

(** [attempt] runs from 1 while [attempt <= attempts]. *)
Definition performWithRetry (w : W) : outcome T (option E) * W :=
  loop (Z.to_nat attempts) 1 None w.
End Loop.

(** A world that only counts the invocations and records the waits. *)
Record Trace : Type := MkTrace { calls : nat; waits : list Z }.

Definition start : Trace := MkTrace 0 [].

Section Scripted.
Context {T E : Type}.
(** [behaviour i] is how the invocation number [i] (from 0) ends. *)
Variable behaviour : nat -> outcome T E.

Definition scripted_fn (t : Trace) : outcome T E * Trace :=
  (behaviour (calls t), MkTrace (S (calls t)) (waits t)).

Definition scripted_sleep (ms : Z) (t : Trace) : Trace :=
  MkTrace (calls t) (waits t ++ [ms]).

Definition scripted_loop (attempts backoffMs : Z) :=
  loop scripted_fn scripted_sleep attempts backoffMs.

Definition run (attempts backoffMs : Z) : outcome T (option E) * Trace :=
  performWithRetry scripted_fn scripted_sleep attempts backoffMs start.
End Scripted.

(** The waits before invocation [k]: [backoffMs * 2^(i-1)] for [i = 1..k-1]. *)
Definition backoffs (backoffMs : Z) (k : nat) : list Z :=
  map (fun i => backoffMs * 2 ^ Z.of_nat i) (seq 0 (k - 1)).

Definition total (l : list Z) : Z := fold_right Z.add 0 l.

Definition fails {T E} (o : outcome T E) : Prop :=
  match o with Rejected _ => True | Resolved _ => False end.
End Retry.


(** ** Runtime primitives on strings *)

Module Js.
(** [String.prototype.toLowerCase], on the ASCII letters. The worker lowers
    hexadecimal addresses and hashes, the [Bearer] scheme and the names of
    query parameters. *)
Definition lower_char (c : ascii) : ascii :=
  let n := nat_of_ascii c in
  if ((65 <=? n) && (n <=? 90))%nat then ascii_of_nat (n + 32) else c.

Fixpoint toLowerCase (s : string) : string :=
  match s with
  | EmptyString => EmptyString
  | String c s' => String (lower_char c) (toLowerCase s')
  end.

(** [trim] takes away the ASCII blanks: tab, line feed, vertical tab, form
    feed, carriage return and space. *)
Fixpoint trimStart (s : string) : string :=
  match s with
  | String c s' => if Ascii.is_space c then trimStart s' else s
  | EmptyString => EmptyString
  end.

Definition trim (s : string) : string :=
  String.rev (trimStart (String.rev (trimStart s))).

Definition startsWith (s p : string) : bool := String.prefix p s.

(** [s.includes(p)]. *)
Fixpoint includes (s p : string) : bool :=
  String.prefix p s ||
  match s with
  | EmptyString => false
  | String _ s' => includes s' p
  end.

(** [s.split(sep)] for a separator of one character: never empty. *)
Fixpoint split (sep : ascii) (s : string) : list string :=
  match s with
  | EmptyString => [EmptyString]
  | String c s' =>
      if Ascii.eqb c sep then EmptyString :: split sep s'
      else match split sep s' with
           | h :: t => String c h :: t
           | [] => [String c EmptyString]
           end
  end.

Fixpoint digits_value (acc : Z) (s : string) : option Z :=
  match s with
  | EmptyString => Some acc
  | String c s' =>
      let n := nat_of_ascii c in
      if ((48 <=? n) && (n <=? 57))%nat
      then digits_value (10 * acc + Z.of_nat (n - 48)) s'
      else None
  end.

(** [Number(s)] on the decimal integer literals, with an optional sign and
    blanks around; [None] elsewhere. It stands for [Number] in the closed
    examples, which use such literals below 2^53 only. *)
Definition NumberOfDecimal (s : string) : option Z :=
  match trim s with
  | EmptyString => Some 0
  | String "-" (String c r) => Z.opp <$> digits_value 0 (String c r)
  | String "+" (String c r) => digits_value 0 (String c r)
  | t => digits_value 0 t
  end.

(** The rest of [s] after the prefix [p], when [s] starts with [p]. *)
Fixpoint after_prefix (p s : string) : option string :=
  match p, s with
  | EmptyString, _ => Some s
  | String a p', String b s' => if Ascii.eqb a b then after_prefix p' s' else None
  | String _ _, EmptyString => None
  end.

(** [s.replace(p, "")] for a string that starts with [p], and
    [s.replace(/^p/, "")] for any string. *)
Definition strip_prefix (p s : string) : string := default s (after_prefix p s).

(** Truthiness of a string. *)
Definition truthy (s : string) : bool :=
  match s with EmptyString => false | _ => true end.

(** [list.join(sep)]. *)
Fixpoint join (sep : string) (l : list string) : string :=
  match l with
  | [] => ""
  | [x] => x
  | x :: l' => x +:+ sep +:+ join sep l'
  end.

(** [arr.slice(0, limit)] for an integer [limit]: a negative limit counts
    from the end. *)
Definition slice0 {A} (limit : Z) (l : list A) : list A :=
  if 0 <=? limit then take (Z.to_nat limit) l
  else take (Z.to_nat (Z.of_nat (length l) + limit)) l.

(** [arr.slice(-n)] for a positive count [n]: the last [n] elements. *)
Definition lastN {A} (n : nat) (l : list A) : list A :=
  drop (length l - n) l.
End Js.

(** ** JSON values and [JSON.stringify] *)

Module Json.
Inductive json : Type :=
  | JNull
  | JBool (b : bool)
  | JNum (z : Z)
  | JStr (s : string)
  | JArr (l : list json)
  | JObj (l : list (string * json)).

(** A property whose value is [undefined] is left out by [JSON.stringify];
    an object is built from its defined properties. *)
Definition opt {A} (k : string) (f : A -> json) (o : option A)
  : list (string * json) :=
  match o with Some a => [(k, f a)] | None => [] end.

Definition hex_digit (n : nat) : ascii :=
  ascii_of_nat (if (n <? 10)%nat then 48 + n else 87 + n).

Definition dquote : ascii := ascii_of_nat 34.
Definition backslash : ascii := ascii_of_nat 92.

(** QuoteJSONString, one character at a time. *)
Definition escape_char (c : ascii) : string :=
  let n := nat_of_ascii c in
  if (n =? 8)%nat then "\b"
  else if (n =? 9)%nat then "\t"
  else if (n =? 10)%nat then "\n"
  else if (n =? 12)%nat then "\f"
  else if (n =? 13)%nat then "\r"
  else if (n =? 34)%nat then String backslash (String dquote "")
  else if (n =? 92)%nat then "\\"
  else if (n <? 32)%nat then
    "\u00" +:+ String (hex_digit (n / 16)) (String (hex_digit (n mod 16)) "")
  else String c "".

Fixpoint escape (s : string) : string :=
  match s with
  | EmptyString => EmptyString
  | String c s' => escape_char c +:+ escape s'
  end.

Definition quote (s : string) : string :=
  String dquote (escape s +:+ String dquote "").

Section Members.
Context {A : Type} (print : A -> string).
(** The members of an array or object, separated by commas. *)
Fixpoint members (l : list A) : string :=
  match l with
  | [] => ""
  | [x] => print x
  | x :: l' => print x +:+ "," +:+ members l'
  end.
End Members.

(** [JSON.stringify(v)] without indentation. *)
Fixpoint stringify (v : json) : string :=
  match v with
  | JNull => "null"
  | JBool true => "true"
  | JBool false => "false"
  | JNum z => pretty z
  | JStr s => quote s
  | JArr l => "[" +:+ members stringify l +:+ "]"
  | JObj l =>
      "{" +:+ members (fun kv => quote (fst kv) +:+ ":" +:+ stringify (snd kv)) l
          +:+ "}"
  end.

(** The 256 characters. *)
Definition all_ascii : list ascii := map ascii_of_nat (seq 0 256).

(** No escape sequence starts another one, and none starts with the quote
    that closes a string. *)
Definition escape_code_ok : bool :=
  forallb (fun c =>
             negb (String.prefix (String dquote "") (escape_char c))
             && Js.truthy (escape_char c)
             && forallb (fun c' =>
                           implb (String.prefix (escape_char c) (escape_char c'))
                                 (Ascii.eqb c c'))
                        all_ascii)
          all_ascii.

(** Property read [o.k] on a parsed value. *)
Fixpoint assoc (k : string) (l : list (string * json)) : option json :=
  match l with
  | [] => None
  | (k', v) :: l' => if String.eqb k k' then Some v else assoc k l'
  end.

Definition get (k : string) (v : json) : option json :=
  match v with JObj l => assoc k l | _ => None end.
(** A reader of JSON texts for the closed examples. It reads what
    [stringify] writes: integers only, and escapes of one byte only. *)
Definition is_ws (c : ascii) : bool :=
  let n := nat_of_ascii c in
  ((n =? 32) || (n =? 9) || (n =? 10) || (n =? 13))%nat.

Fixpoint skip_ws (s : string) : string :=
  match s with
  | String c r => if is_ws c then skip_ws r else s
  | EmptyString => EmptyString
  end.

Definition hex_val (c : ascii) : option nat :=
  let n := nat_of_ascii c in
  if ((48 <=? n) && (n <=? 57))%nat then Some (n - 48)%nat
  else if ((97 <=? n) && (n <=? 102))%nat then Some (n - 87)%nat
  else if ((65 <=? n) && (n <=? 70))%nat then Some (n - 55)%nat
  else None.

Definition unescape (e : ascii) : option ascii :=
  let n := nat_of_ascii e in
  if (n =? 98)%nat then Some (ascii_of_nat 8)
  else if (n =? 116)%nat then Some (ascii_of_nat 9)
  else if (n =? 110)%nat then Some (ascii_of_nat 10)
  else if (n =? 102)%nat then Some (ascii_of_nat 12)
  else if (n =? 114)%nat then Some (ascii_of_nat 13)
  else if (n =? 34)%nat || (n =? 92)%nat || (n =? 47)%nat then Some e
  else None.

(** The characters of a string literal, after its opening quote. *)
Fixpoint read_chars (s : string) : option (string * string) :=
  match s with
  | EmptyString => None
  | String c r =>
      if Ascii.eqb c dquote then Some (EmptyString, r)
      else if Ascii.eqb c backslash then
        match r with
        | String e r' =>
            if Ascii.eqb e "u" then
              match r' with
              | String h1 (String h2 (String h3 (String h4 r2))) =>
                  match hex_val h1, hex_val h2, hex_val h3, hex_val h4 with
                  | Some 0%nat, Some 0%nat, Some x, Some y =>
                      if (16 * x + y <? 128)%nat then
                        match read_chars r2 with
                        | Some (t, rest) => Some (String (ascii_of_nat (16 * x + y)) t, rest)
                        | None => None
                        end
                      else None
                  | _, _, _, _ => None
                  end
              | _ => None
              end
            else
              match unescape e, read_chars r' with
              | Some ch, Some (t, rest) => Some (String ch t, rest)
              | _, _ => None
              end
        | EmptyString => None
        end
      else if (nat_of_ascii c <? 32)%nat then None
      else
        match read_chars r with
        | Some (t, rest) => Some (String c t, rest)
        | None => None
        end
  end.

Fixpoint read_digits (acc : Z) (s : string) : Z * string :=
  match s with
  | String c r =>
      let n := nat_of_ascii c in
      if ((48 <=? n) && (n <=? 57))%nat
      then read_digits (10 * acc + Z.of_nat (n - 48)) r
      else (acc, s)
  | EmptyString => (acc, s)
  end.

Definition starts_digit (s : string) : bool :=
  match s with
  | String c _ => let n := nat_of_ascii c in ((48 <=? n) && (n <=? 57))%nat
  | EmptyString => false
  end.

(** No fraction and no exponent after the digits. *)
Definition integer_end (s : string) : bool :=
  match s with
  | String c _ =>
      negb (Ascii.eqb c "." || Ascii.eqb c "e" || Ascii.eqb c "E")
  | EmptyString => true
  end.

Section Sequence.
Context {A : Type} (item : string -> option (A * string)) (close : ascii).
(** Items separated by commas up to the closing bracket; [n] bounds their
    number. *)
Fixpoint read_items (n : nat) (s : string) : option (list A * string) :=
  match n with
  | O => None
  | S n' =>
      match item s with
      | Some (x, r) =>
          match skip_ws r with
          | String c r' =>
              if Ascii.eqb c "," then
                match read_items n' (skip_ws r') with
                | Some (xs, rest) => Some (x :: xs, rest)
                | None => None
                end
              else if Ascii.eqb c close then Some ([x], r')
              else None
          | EmptyString => None
          end
      | None => None
      end
  end.

Definition read_sequence (n : nat) (s : string) : option (list A * string) :=
  match skip_ws s with
  | String c r => if Ascii.eqb c close then Some ([], r) else read_items n (skip_ws s)
  | EmptyString => None
  end.
End Sequence.

Fixpoint read_value (fuel : nat) (s : string) : option (json * string) :=
  match fuel with
  | O => None
  | S f =>
      match skip_ws s with
      | EmptyString => None
      | String c r =>
          if Ascii.eqb c "n" then
            option_map (fun rest => (JNull, rest)) (Js.after_prefix "ull" r)
          else if Ascii.eqb c "t" then
            option_map (fun rest => (JBool true, rest)) (Js.after_prefix "rue" r)
          else if Ascii.eqb c "f" then
            option_map (fun rest => (JBool false, rest)) (Js.after_prefix "alse" r)
          else if Ascii.eqb c dquote then
            option_map (fun tr => (JStr (fst tr), snd tr)) (read_chars r)
          else if Ascii.eqb c "[" then
            option_map (fun lr => (JArr (fst lr), snd lr))
                       (read_sequence (read_value f) "]" fuel r)
          else if Ascii.eqb c "{" then
            option_map (fun lr => (JObj (fst lr), snd lr))
              (read_sequence
                 (fun t =>
                    match t with
                    | String q t1 =>
                        if Ascii.eqb q dquote then
                          match read_chars t1 with
                          | Some (k, t2) =>
                              match skip_ws t2 with
                              | String colon t3 =>
                                  if Ascii.eqb colon ":" then
                                    match read_value f t3 with
                                    | Some (v, rest) => Some ((k, v), rest)
                                    | None => None
                                    end
                                  else None
                              | EmptyString => None
                              end
                          | None => None
                          end
                        else None
                    | EmptyString => None
                    end)
                 "}" fuel r)
          else if Ascii.eqb c "-" then
            if starts_digit r then
              let '(z, rest) := read_digits 0 r in
              if integer_end rest then Some (JNum (- z), rest) else None
            else None
          else if starts_digit (String c r) then
            let '(z, rest) := read_digits 0 (String c r) in
            if integer_end rest then Some (JNum z, rest) else None
          else None
      end
  end.

Definition parse (s : string) : option json :=
  match read_value (S (String.length s)) s with
  | Some (v, rest) =>
      match skip_ws rest with
      | EmptyString => Some v
      | String _ _ => None
      end
  | None => None
  end.
End Json.

(** [toUtf8Bytes]: the bytes of a string. *)
Definition toUtf8Bytes (s : string) : list Byte.byte := list_byte_of_string s.

(** ** Manifest hash ([buildManifestHash]) *)

Module Manifest.
(** [[...ids].sort()]: the default order of strings, by character code. *)
Definition sort (ids : list string) : list string := merge_sort String.le ids.

Definition payload (success failed : list string) : string :=
  Json.stringify
    (Json.JObj [("success", Json.JArr (Json.JStr <$> sort success));
                ("failed", Json.JArr (Json.JStr <$> sort failed))]).

Section Hash.
(** ethers' [keccak256], as a hexadecimal string. *)
Variable keccak256 : list Byte.byte -> string.

Definition buildManifestHash (success failed : list string) : string :=
  keccak256 (toUtf8Bytes (payload success failed)).
End Hash.
End Manifest.

(** ** Push envelopes ([push-utils.ts]) *)

Module PushUtils.
(** An optional string that the worker reads through [?? ""] or tests for
    falsity ([sop], [data], [clinicId], [signature]) is a [string], empty
    when the field is absent; [study] and [series] keep the difference,
    which the canonical form shows as [null]. *)
Record ProviderPushInstance : Type := MkInstance {
  sop : string;
  study : option string;
  series : option string;
  data : string   (* base64 encoded DICOM payload *)
}.

Record ProviderPushEnvelope : Type := MkEnvelope {
  clinicId : string;
  requestId : option Z;   (* [None]: not a finite number *)
  expiresAt : option Z;
  instances : list ProviderPushInstance;
  signature : string
}.

(** An entry of the canonical form. *)
Record Entry : Type := MkEntry {
  e_sop : string;
  e_study : option string;
  e_series : option string;
  e_dataHash : string
}.

Definition nullable (o : option string) : Json.json :=
  match o with Some s => Json.JStr s | None => Json.JNull end.

Definition entry_json (e : Entry) : Json.json :=
  Json.JObj [("sop", Json.JStr (e_sop e));
             ("study", nullable (e_study e));
             ("series", nullable (e_series e));
             ("dataHash", Json.JStr (e_dataHash e))].


Section Sort.
Context {A : Type}.
(** The comparator handed to [Array.prototype.sort]: negative when the
    first argument goes first. *)
Variable cmp : A -> A -> Z.

Fixpoint insert (x : A) (l : list A) : list A :=
  match l with
  | [] => [x]
  | y :: l' => if cmp x y <=? 0 then x :: l else y :: insert x l'
  end.

(** The sort is stable: elements that compare equal keep their order. *)
Fixpoint sort_by (l : list A) : list A :=
  match l with
  | [] => []
  | x :: l' => insert x (sort_by l')
  end.
End Sort.

Section Hash.
Variable keccak256 : list Byte.byte -> string.
(** [a.localeCompare(b)]. *)
Variable localeCompare : string -> string -> Z.

Definition canonicalise (instances : list ProviderPushInstance) : list Entry :=
  let entries :=
    map (fun instance =>
           MkEntry (sop instance) (study instance) (series instance)
                   (keccak256 (toUtf8Bytes (data instance))))
        instances in
  sort_by (fun a b => localeCompare (e_sop a) (e_sop b)) entries.

Definition computeInstancesHash (instances : list ProviderPushInstance) : string :=
  let canonical := canonicalise instances in
  keccak256 (toUtf8Bytes (Json.stringify (Json.JArr (entry_json <$> canonical)))).
End Hash.



Definition buildPushMessage
    (clinicId : string) (requestId expiresAt : Z) (payloadHash : string) : string :=
  let normalizedClinic := Js.trim clinicId in
  "ProviderPush|" +:+ normalizedClinic +:+ "|" +:+ pretty requestId +:+ "|"
    +:+ pretty expiresAt +:+ "|" +:+ payloadHash.
End PushUtils.

(** ** Copy event store ([CopyEventStore]) *)

Module CopyEvents.
Inductive CopyEventStatus : Type := pending | copying | completed | partial | error.

Record CopyEventFailure : Type := MkFailure { f_sop : string; f_message : string }.

(** The two timestamps of the source record are left out: nothing below
    reads them. *)
Record CopyEvent : Type := MkCopyEvent {
  requestId : Z;
  providerId : option string;
  patientAddress : string;
  patientId : string;
  total : Z;
  success : Z;
  failed : Z;
  status : CopyEventStatus;
  errors : list string;
  failures : list CopyEventFailure;
  manifestHash : option string
}.

Record CopyEventUpdate : Type := MkUpdate {
  u_total : option Z;
  u_success : option Z;
  u_failed : option Z;
  u_status : option CopyEventStatus;
  u_manifestHash : option string;
  u_error : option string
}.

Record CopyEventStore : Type := MkStore {
  events : gmap Z CopyEvent;
  order : list Z;
  limit : nat
}.

Definition empty (limit : nat) : CopyEventStore := MkStore ∅ [] limit.

(** [order.splice(order.indexOf(id), 1)] when the id is present. *)
Fixpoint remove_first (id : Z) (l : list Z) : list Z :=
  match l with
  | [] => []
  | x :: l' => if Z.eqb x id then l' else x :: remove_first id l'
  end.

(** [trim]: drop the oldest ids while there are more than [limit]. *)
Fixpoint trim_loop (n : nat) (lim : nat) (ev : gmap Z CopyEvent) (ord : list Z)
  : gmap Z CopyEvent * list Z :=
  match n with
  | O => (ev, ord)
  | S n' =>
      if (lim <? length ord)%nat then
        match ord with
        | oldest :: rest => trim_loop n' lim (delete oldest ev) rest
        | [] => (ev, ord)
        end
      else (ev, ord)
  end.

Definition trim (s : CopyEventStore) : CopyEventStore :=
  let '(ev, ord) := trim_loop (length (order s)) (limit s) (events s) (order s) in
  MkStore ev ord (limit s).

Definition start (id : Z) (prov : option string) (addr pid : string)
    (s : CopyEventStore) : CopyEventStore :=
  let ord := remove_first id (order s) in
  let entry := MkCopyEvent id prov addr pid 0 0 0 pending [] [] None in
  trim (MkStore (<[id := entry]> (events s)) (ord ++ [id]) (limit s)).

Definition apply_update (patch : CopyEventUpdate) (e : CopyEvent) : CopyEvent :=
  MkCopyEvent (requestId e) (providerId e) (patientAddress e) (patientId e)
    (default (total e) (u_total patch))
    (default (success e) (u_success patch))
    (default (failed e) (u_failed patch))
    (default (status e) (u_status patch))
    (match u_error patch with
     | Some m => if Js.truthy m then Js.lastN 5 (errors e ++ [m]) else errors e
     | None => errors e
     end)
    (failures e)
    (match u_manifestHash patch with
     | Some h => Some h
     | None => manifestHash e
     end).

Definition update (id : Z) (patch : CopyEventUpdate) (s : CopyEventStore)
  : CopyEventStore :=
  match events s !! id with
  | None => s
  | Some e => MkStore (<[id := apply_update patch e]> (events s)) (order s) (limit s)
  end.

Definition recordFailure (id : Z) (f : CopyEventFailure) (s : CopyEventStore)
  : CopyEventStore :=
  match events s !! id with
  | None => s
  | Some e =>
      let e' := MkCopyEvent (requestId e) (providerId e) (patientAddress e)
                  (patientId e) (total e) (success e) (failed e) (status e)
                  (errors e) (Js.lastN 20 (failures e ++ [f])) (manifestHash e) in
      MkStore (<[id := e']> (events s)) (order s) (limit s)
  end.

(** [fail]: the alert it may send goes to an outside channel and changes
    nothing here. *)
Definition fail (id : Z) (message : string) (s : CopyEventStore) : CopyEventStore :=
  match events s !! id with
  | None => s
  | Some e =>
      let e' := MkCopyEvent (requestId e) (providerId e) (patientAddress e)
                  (patientId e) (total e) (success e) (failed e) error
                  (Js.lastN 5 (errors e ++ [message])) (failures e)
                  (manifestHash e) in
      MkStore (<[id := e']> (events s)) (order s) (limit s)
  end.

Definition status_of (id : Z) (s : CopyEventStore) : option CopyEventStatus :=
  status <$> events s !! id.
End CopyEvents.

(** ** Bearer-token authentication ([auth.ts]) *)

Module Auth.
Record Principal : Type := MkPrincipal {
  subject : string;
  roles : list string;
  clinicId : option string
}.

(** A failure: the status and the message. *)
Definition Failure : Type := (Z * string)%type.

(** The authenticator. [verifyToken] checks the signature against the key
    set and the registered claims; it is carried as a function of the
    token, standing for the method with its configuration. *)
Record JwtAuth : Type := MkJwtAuth {
  verifyToken : string -> outcome Principal Failure
}.

Definition verifyHeader (authHeader : option string) : outcome string Failure :=
  match authHeader with
  | None => Rejected (401, "missing Authorization header")
  | Some h =>
      match Js.split " " h with
      | scheme :: token :: _ =>
          if negb (Js.truthy token)
             || negb (String.eqb (Js.toLowerCase scheme) "bearer")
          then Rejected (401, "invalid Authorization header")
          else Resolved token
      | _ => Rejected (401, "invalid Authorization header")
      end
  end.

(** What [requireAuth] returns and, on failure, what it has written to the
    response: the status and the text. *)
Inductive AuthResult : Type :=
  | AuthOk (principal : option Principal)
  | AuthFailed (status : Z) (message : string) (written : string).

Definition includes (role : string) (l : list string) : bool :=
  existsb (String.eqb role) l.

Definition requireAuth (authHeader : option string) (auth : option JwtAuth)
    (requiredRoles : list string) : AuthResult :=
  match auth with
  | None => AuthOk None
  | Some a =>
      match verifyHeader authHeader with
      | Rejected (st, msg) => AuthFailed st msg msg
      | Resolved token =>
          match verifyToken a token with
          | Rejected (st, msg) => AuthFailed st msg msg
          | Resolved principal =>
              if negb (Js.truthy (subject principal))
              then AuthFailed 401 "JWT subject missing" "JWT subject missing"
              else
                match requiredRoles with
                | [] => AuthOk (Some principal)
                | _ =>
                    let granted :=
                      existsb (fun role => includes role (roles principal))
                              requiredRoles in
                    if negb granted
                    then AuthFailed 403 "insufficient role"
                                    "forbidden: insufficient role"
                    else AuthOk (Some principal)
                end
          end
      end
  end.
End Auth.

(** ** The HTTP gateway ([startApiServer]) *)

Module Gateway.
Import Json.

(** What [contract.reqs(id)] returns. *)
Record ReqData : Type := MkReq {
  r_id : Z;
  r_patient : string;
  r_providerClinicKey : string;
  r_requesterClinicKey : string;
  r_status : Z   (* 0 REQUESTED, 1 PATIENT_APPROVED, 2 FULFILLED, 3 EXPIRED, 4 CANCELED *)
}.

Inductive ClinicRole : Type := provider | requester.

Record ClinicCfg : Type := MkClinic {
  role : ClinicRole;
  operatorAddress : option string
}.

Record HttpEndpoint : Type := MkEndpoint {
  baseUrl : string;
  basicAuth : option (string * string)
}.

Record DicomNodeConfig : Type := MkNode {
  n_clinicId : string;
  n_qido : HttpEndpoint;
  n_wado : HttpEndpoint
}.

(** A parsed request body of [PUT /clinics/config]; a missing property is
    the empty string or [None]. *)
Record ClinicBody : Type := MkBody {
  b_clinicId : string;
  b_qido : option HttpEndpoint;
  b_wado : option HttpEndpoint
}.

Record Request : Type := MkRequest {
  method : string;
  pathname : string;
  searchParams : list (string * string);
  authorization : option string;
  accept : option string;
  xForwardedFor : option string;
  remoteAddress : option string
}.

Inductive Body : Type :=
  | Text (s : string)
  | ErrorJson (message : string)
  | Configs (m : gmap string DicomNodeConfig)
  | Upstream (data : string).

Record Response : Type := MkResponse { statusCode : Z; body : Body }.

Inductive ResponseType : Type := arraybuffer | json_type.

(** A request sent to the destination imaging endpoint. *)
Record UpstreamCall : Type := MkCall {
  c_url : string;
  c_responseType : ResponseType;
  c_accept : string
}.

Record UpstreamResponse : Type := MkUp { up_status : Z; up_data : string }.

(** A failed upstream call: the status of its response when there is one,
    and the text [formatAxiosError] makes of it. *)
Record UpstreamError : Type := MkUpErr { ue_status : option Z; ue_message : string }.

(** What the handler of one request has done. *)
Record Result : Type := MkResult {
  response : Response;
  audited : list json;          (* the entries given to [audit.log] *)
  forwarded : list UpstreamCall (* the calls made to the imaging endpoint *)
}.

Definition reply (st : Z) (b : Body) : Result := MkResult (MkResponse st b) [] [].

Definition getClientIp (req : Request) : option string :=
  match xForwardedFor req with
  | Some fwd =>
      if Js.truthy (Js.trim fwd)
      then head (map Js.trim (Js.split "," fwd))
      else remoteAddress req
  | None => remoteAddress req
  end.

(** [url.searchParams.get(k)]. *)
Fixpoint params_get (k : string) (ps : list (string * string)) : option string :=
  match ps with
  | [] => None
  | (k', v) :: ps' => if String.eqb k k' then Some v else params_get k ps'
  end.

(** [out[key] = value] on an object under construction. *)
Fixpoint obj_set (k : string) (v : json) (o : list (string * json))
  : list (string * json) :=
  match o with
  | [] => [(k, v)]
  | (k', v') :: o' => if String.eqb k k' then (k, v) :: o' else (k', v') :: obj_set k v o'
  end.

Definition secret_key (key : string) : bool :=
  let l := Js.toLowerCase key in
  Js.includes l "pass" || Js.includes l "token" || Js.includes l "secret".

(** [sanitiseParams]: [None] is [undefined]. *)
Definition sanitiseParams (params : list (string * string)) (exclude : list string)
  : option json :=
  let entries := filter (fun kv => negb (existsb (String.eqb (fst kv)) exclude)) params in
  match entries with
  | [] => None
  | _ =>
      Some (JObj (fold_left
                    (fun out kv =>
                       obj_set (fst kv)
                         (JStr (if secret_key (fst kv) then "***" else snd kv)) out)
                    entries []))
  end.

Definition is_digit (c : ascii) : bool :=
  let n := nat_of_ascii c in ((48 <=? n) && (n <=? 57))%nat.

Fixpoint span_digits (s : string) : string * string :=
  match s with
  | String c s' =>
      if is_digit c then let '(d, r) := span_digits s' in (String c d, r)
      else (EmptyString, s)
  | EmptyString => (EmptyString, EmptyString)
  end.

Fixpoint has_line_break (s : string) : bool :=
  match s with
  | String c s' => (nat_of_ascii c =? 10)%nat || (nat_of_ascii c =? 13)%nat
                   || has_line_break s'
  | EmptyString => false
  end.

(** The match of the path pattern: a slash, one or more digits and then
    either the end or a slash with anything up to the end of the line. The
    result is the digits and the optional rest. *)
Definition match_id_path (s : string) : option (string * option string) :=
  match s with
  | String "/" s' =>
      match span_digits s' with
      | (EmptyString, _) => None
      | (ds, EmptyString) => Some (ds, None)
      | (ds, String "/" r) =>
          if has_line_break r then None else Some (ds, Some (String "/" r))
      | _ => None
      end
  | _ => None
  end.

(** [s.replace(/^\/secure/, "")]. *)
Definition strip_secure (s : string) : string := Js.strip_prefix "/secure" s.

Definition all_digits (s : string) : bool :=
  Js.truthy s && forallb is_digit (list_ascii_of_string s).

(** What may follow the digits in a path that the pattern matches. *)
Definition path_rest (rest : string) : bool :=
  match rest with
  | EmptyString => true
  | String c r => Ascii.eqb c "/" && negb (has_line_break r)
  end.

(** The request id parameter and the raw forward path of a [/secure]
    request: the [requestId] of the query when it is there and not empty,
    otherwise the digits that open the path. *)
Definition locate (req : Request) : option string * string :=
  let requestIdParam := params_get "requestId" (searchParams req) in
  let forwardPathRaw := strip_secure (pathname req) in
  match match_id_path forwardPathRaw with
  | Some (digits, rest) =>
      if negb (Js.truthy (default "" requestIdParam))
      then (Some digits, default "/" rest)
      else (requestIdParam, forwardPathRaw)
  | None => (requestIdParam, forwardPathRaw)
  end.

Inductive Access : Type :=
  | Granted (reqData : ReqData) (patientAddress patientId : string)
  | Denied (status : Z) (message : string).

Section Server.
Variable keccak256 : list Byte.byte -> string.
(** [Number(s)] when it is finite. *)
Variable Number : string -> option Z.
(** [contract.reqs(id)]: the ledger answers or the call throws. *)
Variable reqs : Z -> outcome ReqData string.
(** [store.lookup(address)] of the alias store. *)
Variable lookup : string -> option string.
(** [deps.clinics], in the order of [Object.entries]. *)
Variable clinics : list (string * ClinicCfg).
(** [deps.requesterAxios], answering one call. *)
Variable requester_axios : option (UpstreamCall -> outcome UpstreamResponse UpstreamError).
(** Whether [deps.audit] is set. *)
Variable audit : bool.
Variable auth : option Auth.JwtAuth.
(** [new Date().toISOString()] while the request is handled. *)
Variable now : string.
(** [URLSearchParams.prototype.toString]. *)
Variable searchToString : list (string * string) -> string.
(** [decodeURIComponent]. *)
Variable decodeURIComponent : string -> outcome string string.

Definition clinicKey (clinicId : string) : string :=
  keccak256 (toUtf8Bytes clinicId).

Definition resolvePatientId (patientAddress : string) : string :=
  default patientAddress (lookup patientAddress).

Definition resolveAccessRequest (requestId : Z) : outcome Access string :=
  match reqs requestId with
  | Rejected e => Rejected e
  | Resolved reqData =>
      if r_id reqData =? 0 then Resolved (Denied 404 "request not found")
      else
        let status := r_status reqData in
        if status <? 1 then Resolved (Denied 403 "request is not approved")
        else
          let requesterKey := Js.toLowerCase (r_requesterClinicKey reqData) in
          let allowedRequester :=
            existsb (fun entry =>
                       match role (snd entry) with
                       | requester =>
                           String.eqb (Js.toLowerCase (clinicKey (fst entry)))
                                      requesterKey
                       | provider => false
                       end) clinics in
          if negb allowedRequester
          then Resolved (Denied 403 "requester clinic is not managed by this worker")
          else
            let patientAddress := r_patient reqData in
            Resolved (Granted reqData patientAddress (resolvePatientId patientAddress))
  end.

Definition log_entry (entry : json) : list json := if audit then [entry] else [].

Definition principal_fields (principal : option Auth.Principal) (clientIp : option string)
  : list (string * json) :=
  opt "subject" JStr (Auth.subject <$> principal)
  ++ opt "roles" (fun r => JArr (JStr <$> r)) (Auth.roles <$> principal)
  ++ opt "clientIp" JStr clientIp.

(** The properties shared by the entries of a forwarded call
    ([auditCommon]). *)
Definition auditCommon (req : Request) (forwardPath : string) (requestId : Z)
    (patientAddress patientId : string) (auditQuery : option json)
    (principal : option Auth.Principal) (clientIp : option string)
  : list (string * json) :=
  [("timestamp", JStr now); ("method", JStr (method req));
   ("path", JStr (pathname req)); ("forwardPath", JStr forwardPath);
   ("requestId", JNum requestId); ("patientAddress", JStr patientAddress);
   ("patientId", JStr patientId)]
  ++ opt "query" (fun q => q) auditQuery
  ++ principal_fields principal clientIp.

(** The path sent on, from what is left of the request path. *)
Definition forward_path (forwardPathRaw : string) : string :=
  if negb (Js.truthy forwardPathRaw) || String.eqb forwardPathRaw "/"
  then "/"
  else if negb (Js.startsWith forwardPathRaw "/")
       then "/" +:+ forwardPathRaw
       else forwardPathRaw.

Definition wants_binary (req : Request) (forwardPath : string) : bool :=
  match accept req with
  | Some a =>
      if Js.truthy a
      then Js.includes (Js.toLowerCase a) "application/dicom"
           || Js.includes (Js.toLowerCase a) "image/"
      else Js.includes forwardPath "/instances/"
  | None => Js.includes forwardPath "/instances/"
  end.

(** The call made to the destination imaging endpoint. *)
Definition proxy_call (req : Request) (forwardPathRaw : string) : UpstreamCall :=
  let forwardPath := forward_path forwardPathRaw in
  let search :=
    filter (fun kv => negb (String.eqb (fst kv) "requestId")) (searchParams req) in
  let qs := searchToString search in
  let forwardUrl := forwardPath +:+ (if Js.truthy qs then "?" +:+ qs else "") in
  let wantsBinary := wants_binary req forwardPath in
  MkCall forwardUrl (if wantsBinary then arraybuffer else json_type)
    (default (if wantsBinary then "application/dicom" else "application/json")
             (accept req)).

(** The entry logged for a request that the consent check refuses. *)
Definition denial_entry (req : Request) (requestId st : Z) (message : string)
    (principal : option Auth.Principal) (clientIp : option string) : json :=
  JObj ([("timestamp", JStr now); ("method", JStr (method req));
         ("path", JStr (pathname req)); ("forwardPath", JStr (pathname req));
         ("requestId", JNum requestId);
         ("patientAddress", JStr ""); ("patientId", JStr "")]
        ++ opt "query" (fun q => q) (sanitiseParams (searchParams req) ["requestId"])
        ++ [("status", JNum st); ("error", JStr message)]
        ++ principal_fields principal clientIp).

(** The [try] and [catch] around the upstream call. Copying the headers and
    the body of the upstream response into the answer does not throw. *)
Definition proxy
    (upstream : UpstreamCall -> outcome UpstreamResponse UpstreamError)
    (req : Request) (forwardPathRaw : string) (requestId : Z)
    (patientAddress patientId : string)
    (principal : option Auth.Principal) (clientIp : option string) : Result :=
  let common :=
    auditCommon req (forward_path forwardPathRaw) requestId patientAddress patientId
      (sanitiseParams (searchParams req) ["requestId"]) principal clientIp in
  let call := proxy_call req forwardPathRaw in
  match upstream call with
  | Resolved axiosRes =>
      MkResult (MkResponse (up_status axiosRes) (Upstream (up_data axiosRes)))
        (log_entry
           (JObj (common ++ [("status", JNum (up_status axiosRes));
                             ("upstreamStatus", JNum (up_status axiosRes))])))
        [call]
  | Rejected proxyErr =>
      let message := ue_message proxyErr in
      MkResult (MkResponse 502 (Text ("upstream error: " +:+ message)))
        (log_entry
           (JObj (common ++ [("status", JNum 502)]
                  ++ opt "upstreamStatus" JNum (ue_status proxyErr)
                  ++ [("error", JStr message)])))
        [call]
  end.

(** [GET /secure/...], once the route is taken. *)
Definition route_secure
    (upstream : UpstreamCall -> outcome UpstreamResponse UpstreamError)
    (req : Request) : Result :=
  match Auth.requireAuth (authorization req) auth ["requester.viewer"] with
  | Auth.AuthFailed st _ written => reply st (Text written)
  | Auth.AuthOk principal =>
      let clientIp := getClientIp req in
      let '(requestIdParam, forwardPathRaw) := locate req in
      if negb (Js.truthy (default "" requestIdParam))
      then reply 400 (Text "requestId is required")
      else
        match Number (default "" requestIdParam) with
        | None => reply 400 (Text "requestId must be numeric")
        | Some requestId =>
            match resolveAccessRequest requestId with
            | Rejected e => reply 400 (Text e)   (* the handler's [catch] *)
            | Resolved (Denied st message) =>
                MkResult (MkResponse st (Text message))
                  (log_entry (denial_entry req requestId st message principal clientIp))
                  []
            | Resolved (Granted _ patientAddress patientId) =>
                proxy upstream req forwardPathRaw requestId patientAddress patientId
                      principal clientIp
            end
        end
  end.

(** A request that no route takes. *)
Definition not_found : Result := reply 404 (Text "Not Found").

(** The handler on a request whose path starts with [/secure/]: of the
    routes tried before the proxy only the [OPTIONS] preflight takes
    such a request. *)
Definition handle_secure (req : Request) : Result :=
  if String.eqb (method req) "OPTIONS" then reply 204 (Text "")
  else
    match requester_axios with
    | Some upstream =>
        if String.eqb (method req) "GET" then route_secure upstream req
        else not_found
    | None => not_found
    end.

(** [PUT /clinics/config]: the response and the clinic store afterwards.
    [body] is what [readJsonBody] returns or throws. *)
Definition route_clinics_put (req : Request) (body : outcome ClinicBody string)
    (store : gmap string DicomNodeConfig)
  : Response * gmap string DicomNodeConfig :=
  match Auth.requireAuth (authorization req) auth ["worker.admin"] with
  | Auth.AuthFailed st _ written => (MkResponse st (Text written), store)
  | Auth.AuthOk principal =>
      match body with
      | Rejected e => (MkResponse 400 (Text e), store)
      | Resolved b =>
          match Js.truthy (b_clinicId b), b_qido b, b_wado b with
          | true, Some qido, Some wado =>
              let isAdmin :=
                match principal with
                | Some p => Auth.includes "worker.admin" (Auth.roles p)
                | None => false
                end in
              let own :=
                match principal ≫= Auth.clinicId with
                | Some c => String.eqb c (b_clinicId b)
                | None => false
                end in
              if negb isAdmin && negb own
              then (MkResponse 403
                      (ErrorJson "forbidden: you can only edit your own clinic"),
                    store)
              else
                let store' := <[b_clinicId b := MkNode (b_clinicId b) qido wado]> store in
                (MkResponse 200 (Configs store'), store')
          | _, _, _ =>
              (MkResponse 400
                 (ErrorJson "missing required fields (clinicId, qido, wado)"),
               store)
          end
      end
  end.

(** [DELETE /clinics/config/{id}]. *)
Definition route_clinics_delete (req : Request) (store : gmap string DicomNodeConfig)
  : Response * gmap string DicomNodeConfig :=
  match Auth.requireAuth (authorization req) auth ["worker.admin"] with
  | Auth.AuthFailed st _ written => (MkResponse st (Text written), store)
  | Auth.AuthOk principal =>
      let rest := Js.strip_prefix "/clinics/config/" (pathname req) in
      match decodeURIComponent rest with
      | Rejected e => (MkResponse 400 (Text e), store)
      | Resolved target =>
          let isAdmin :=
            match principal with
            | Some p => Auth.includes "worker.admin" (Auth.roles p)
            | None => false
            end in
          let own :=
            match principal ≫= Auth.clinicId with
            | Some c => String.eqb c target
            | None => false
            end in
          if negb isAdmin && negb own
          then (MkResponse 403
                  (ErrorJson "forbidden: you can only delete your own clinic"),
                store)
          else
            let store' := delete target store in
            (MkResponse 200 (Configs store'), store')
      end
  end.
End Server.
End Gateway.

(** ** Provider push ([handleProviderPush]) and fulfilment *)

Module Push.
Import PushUtils.

Inductive CopyMode : Type := dryRun | orthanc | providerPush.

Record PendingPushEntry : Type := MkPending {
  p_requestId : Z;
  p_providerId : string;
  p_patientAddress : string;
  p_patientId : string
}.

Record MarkFulfilledPayload : Type := MkPayload {
  m_providerId : string;
  m_requestId : Z;
  m_manifestHash : string;
  m_patientAddress : string;
  m_patientId : string;
  m_success : Z;
  m_failed : Z
}.

Record MarkFulfilledResult : Type := MkFulfilled {
  txHash : option string;
  message : option string
}.

(** [SignerClient]: which clinics have a signer and what submitting the
    confirmation for one of them returns or throws. *)
Record SignerClient : Type := MkSigner {
  hasSigner : string -> bool;
  markFulfilled : string -> MarkFulfilledPayload -> outcome MarkFulfilledResult string
}.

Record PushBody : Type := MkPushBody {
  pb_manifestHash : string;
  pb_success : Z;
  pb_failed : Z;
  pb_status : CopyEvents.CopyEventStatus
}.

Record ProviderPushResult : Type := MkPushResult {
  status : Z;
  body : option PushBody;
  error : option string
}.

Definition refuse (st : Z) (msg : string) : ProviderPushResult :=
  MkPushResult st None (Some msg).

(** The state of the worker that a push touches, and a record of what it
    has done outside: the bodies posted to the requester's imaging server,
    the waits of the retries, the confirmations handed to the signer and
    the number of reads of the ledger while waiting for them. *)
Record World : Type := MkWorld {
  pendingPush : gmap Z PendingPushEntry;
  copyEvents : CopyEvents.CopyEventStore;
  posts : list string;
  waits : list Z;
  confirmations : list MarkFulfilledPayload;
  polls : nat
}.

Definition set_pending (p : gmap Z PendingPushEntry) (w : World) : World :=
  MkWorld p (copyEvents w) (posts w) (waits w) (confirmations w) (polls w).
Definition set_events (c : CopyEvents.CopyEventStore) (w : World) : World :=
  MkWorld (pendingPush w) c (posts w) (waits w) (confirmations w) (polls w).
Definition on_events (f : CopyEvents.CopyEventStore -> CopyEvents.CopyEventStore)
    (w : World) : World :=
  set_events (f (copyEvents w)) w.
Definition sleep (ms : Z) (w : World) : World :=
  MkWorld (pendingPush w) (copyEvents w) (posts w) (waits w ++ [ms])
          (confirmations w) (polls w).

Section Worker.
Variable keccak256 : list Byte.byte -> string.
Variable localeCompare : string -> string -> Z.
(** ethers' [verifyMessage]: the address recovered from a signature over
    a message, or a throw on a malformed signature. *)
Variable verifyMessage : string -> string -> outcome string string.
Variable copyMode : CopyMode.
(** The checksummed operator address of every provider clinic. *)
Variable providerSignerAddresses : gmap string string.
(** [Math.floor(Date.now() / 1000)] at the expiry check. *)
Variable nowSec : Z.
(** [contract.reqs(id)] at the status check. *)
Variable reqs : Z -> outcome Gateway.ReqData string.
(** [cfg.requester?.orthanc]. *)
Variable requesterCfg : option Gateway.HttpEndpoint.
(** [cfg.copy?.maxRetries] and [cfg.copy?.backoffMs]. *)
Variables maxRetries backoffMs : option Z.
(** [Buffer.from(data, "base64")]. *)
Variable base64 : string -> string.
(** How the POST number [i] to the imaging server ends. *)
Variable post_outcome : nat -> outcome unit string.
Variable signerClient : option SignerClient.
Variables fulfillmentPollMs fulfillmentMaxAttempts : Z.
(** What the poll number [i] reads as the status of the request, or the
    failure of that read. *)
Variable poll_status : nat -> outcome Z string.

(** [uploadToOrthanc(requesterCfg, buffer)]. *)
Definition uploadToOrthanc (buffer : string) (w : World) : outcome unit string * World :=
  (post_outcome (length (posts w)),
   MkWorld (pendingPush w) (copyEvents w) (posts w ++ [buffer]) (waits w)
           (confirmations w) (polls w)).

Fixpoint wait_loop (n : nat) (w : World) : outcome unit string * World :=
  match n with
  | O =>
      (Rejected ("markFulfilled status not observed within "
                   +:+ pretty fulfillmentMaxAttempts +:+ " attempts (interval="
                   +:+ pretty fulfillmentPollMs +:+ "ms)"), w)
  | S n' =>
      let w1 := MkWorld (pendingPush w) (copyEvents w) (posts w) (waits w)
                        (confirmations w) (S (polls w)) in
      match poll_status (polls w) with
      | Rejected e => (Rejected e, w1)
      | Resolved st =>
          if 2 <=? st then (Resolved tt, w1)
          else wait_loop n' (sleep fulfillmentPollMs w1)
      end
  end.

Definition waitForFulfilledStatus (w : World) : outcome unit string * World :=
  wait_loop (Z.to_nat fulfillmentMaxAttempts) w.

Definition requestMarkFulfilled (providerId : string) (payload : MarkFulfilledPayload)
    (w : World) : outcome MarkFulfilledResult string * World :=
  match signerClient with
  | None => (Rejected "signer client is not configured (config.signers)", w)
  | Some signer =>
      if negb (hasSigner signer providerId)
      then (Rejected ("signer config not found for clinic " +:+ providerId), w)
      else
        let w1 := MkWorld (pendingPush w) (copyEvents w) (posts w) (waits w)
                          (confirmations w ++ [payload]) (polls w) in
        match markFulfilled signer providerId payload with
        | Rejected e => (Rejected e, w1)
        | Resolved result =>
            match waitForFulfilledStatus w1 with
            | (Rejected e, w2) => (Rejected e, w2)
            | (Resolved _, w2) => (Resolved result, w2)
            end
        end
  end.

Definition counts (success failed : list string) (st : CopyEvents.CopyEventStatus)
  : CopyEvents.CopyEventUpdate :=
  CopyEvents.MkUpdate None (Some (Z.of_nat (length success)))
    (Some (Z.of_nat (length failed))) (Some st) None None.

(** The [try] block of the loop: decode the payload and upload it. *)
Definition attempt_upload (instance : ProviderPushInstance) (w : World)
  : outcome unit string * World :=
  if negb (Js.truthy (data instance))
  then (Rejected "instance payload missing base64 data", w)
  else
    let buffer := base64 (data instance) in
    if negb (Js.truthy buffer) then (Rejected "decoded payload empty", w)
    else
      match Retry.performWithRetry (uploadToOrthanc buffer) sleep
              (default 3 maxRetries) (default 1000 backoffMs) w with
      | (Resolved _, w') => (Resolved tt, w')
      | (Rejected e, w') => (Rejected (default "unknown error" e), w')
      end.

(** The body of the loop over the instances of an envelope. *)
Definition push_instance (requestId : Z) (acc : list string * list string * World)
    (instance : ProviderPushInstance) : list string * list string * World :=
  let '(success, failed, w) := acc in
  let sop := PushUtils.sop instance in
  if negb (Js.truthy sop) then
    let failed' := failed ++ ["(unknown)"] in
    let w1 := on_events (CopyEvents.recordFailure requestId
                 (CopyEvents.MkFailure "(unknown)" "missing SOPInstanceUID")) w in
    (success, failed',
     on_events (CopyEvents.update requestId
                  (counts success failed' CopyEvents.partial)) w1)
  else
    let '(res, w1) := attempt_upload instance w in
    let '(success', failed', w2) :=
      match res with
      | Resolved _ => (success ++ [sop], failed, w1)
      | Rejected msg =>
          (success, failed ++ [sop],
           on_events (CopyEvents.recordFailure requestId
                        (CopyEvents.MkFailure sop msg)) w1)
      end in
    let interimStatus :=
      match failed' with [] => CopyEvents.copying | _ => CopyEvents.partial end in
    (success', failed',
     on_events (CopyEvents.update requestId (counts success' failed' interimStatus)) w2).

(** The push branch of the orchestrator for a newly approved request:
    start its copy event and park a pending push for the provider. *)
Definition await_push (id : Z) (providerId : option string)
    (patientAddr patientId : string) (w : World) : World :=
  let w1 := on_events (CopyEvents.start id providerId patientAddr patientId) w in
  match providerId with
  | None => on_events (CopyEvents.fail id "providerId not found in config") w1
  | Some prov =>
      if negb (Js.truthy prov)
      then on_events (CopyEvents.fail id "providerId not found in config") w1
      else
        let w2 :=
          set_pending (<[id := MkPending id prov patientAddr patientId]> (pendingPush w1))
                      w1 in
        on_events (CopyEvents.update id
                     (CopyEvents.MkUpdate (Some 0) (Some 0) (Some 0)
                        (Some CopyEvents.pending) None None)) w2
  end.

(** The loop over the instances: the ids that went through, those that did
    not, and the world afterwards. *)
Definition upload_all (requestId : Z) (instances : list ProviderPushInstance) (w : World)
  : list string * list string * World :=
  fold_left (push_instance requestId) instances ([], [], w).

(** The message that the signature of an envelope must cover. *)
Definition signing_message (clinicId : string) (requestId expiresAt : Z)
    (instances : list ProviderPushInstance) : string :=
  buildPushMessage clinicId requestId expiresAt
    (computeInstancesHash keccak256 localeCompare instances).

(** The manifest, the confirmation with its [try], [catch] and [finally],
    and the final update. *)
Definition confirm (clinicId : string) (requestId : Z) (pending : PendingPushEntry)
    (transferred : list string * list string * World) : ProviderPushResult * World :=
  let '(success, failed, w2) := transferred in
  let manifestHash := Manifest.buildManifestHash keccak256 success failed in
  let outcomeStatus :=
    match failed with [] => CopyEvents.completed | _ => CopyEvents.partial end in
  let nsuccess := Z.of_nat (length success) in
  let nfailed := Z.of_nat (length failed) in
  match requestMarkFulfilled clinicId
          (MkPayload clinicId requestId manifestHash (p_patientAddress pending)
                     (p_patientId pending) nsuccess nfailed) w2 with
  | (Rejected msg, w3) =>
      let w4 := on_events (CopyEvents.fail requestId msg) w3 in
      (refuse 502 msg, set_pending (delete requestId (pendingPush w4)) w4)
  | (Resolved _, w3) =>
      let w4 := set_pending (delete requestId (pendingPush w3)) w3 in
      let w5 :=
        on_events (CopyEvents.update requestId
                     (CopyEvents.MkUpdate None (Some nsuccess) (Some nfailed)
                        (Some outcomeStatus) (Some manifestHash) None)) w4 in
      (MkPushResult 200
         (Some (MkPushBody manifestHash nsuccess nfailed outcomeStatus)) None,
       w5)
  end.

Definition handleProviderPush (envelope : ProviderPushEnvelope) (w : World)
  : ProviderPushResult * World :=
  match copyMode with
  | providerPush =>
    let clinicId := Js.trim (clinicId envelope) in
    if negb (Js.truthy clinicId) then (refuse 400 "clinicId is required", w) else
    match requestId envelope with
    | None => (refuse 400 "requestId must be numeric", w)
    | Some requestId =>
    match expiresAt envelope with
    | None => (refuse 400 "expiresAt must be numeric", w)
    | Some expiresAt =>
    if negb (Js.truthy (signature envelope))
    then (refuse 400 "signature is required", w) else
    match instances envelope with
    | [] => (refuse 400 "instances must be a non-empty array", w)
    | _ =>
    match pendingPush w !! requestId with
    | None => (refuse 409 "no pending access request", w)
    | Some pending =>
    if negb (String.eqb (p_providerId pending) clinicId)
    then (refuse 403 "clinicId mismatch", w) else
    match providerSignerAddresses !! clinicId with
    | None => (refuse 403 "unknown provider clinic", w)
    | Some expectedSigner =>
    if negb (Js.truthy expectedSigner)
    then (refuse 403 "unknown provider clinic", w) else
    match verifyMessage
            (signing_message clinicId requestId expiresAt (instances envelope))
            (signature envelope) with
    | Rejected msg => (refuse 400 ("signature verification failed: " +:+ msg), w)
    | Resolved recovered =>
    if negb (String.eqb (Js.toLowerCase recovered) (Js.toLowerCase expectedSigner))
    then (refuse 403 "signature mismatch", w) else
    if expiresAt <? nowSec then (refuse 410 "envelope expired", w) else
    match reqs requestId with
    | Rejected msg => (refuse 500 ("failed to load access request: " +:+ msg), w)
    | Resolved reqData =>
    if 2 <=? Gateway.r_status reqData
    then (refuse 409 "access request already fulfilled",
          set_pending (delete requestId (pendingPush w)) w) else
    match requesterCfg with
    | None => (refuse 500 "requester orthanc config missing", w)
    | Some _ =>
      let total := Z.of_nat (length (instances envelope)) in
      let w1 :=
        on_events (CopyEvents.update requestId
                     (CopyEvents.MkUpdate (Some total) None None
                        (Some CopyEvents.copying) None None)) w in
      confirm clinicId requestId pending
        (upload_all requestId (instances envelope) w1)
    end end end end end end end end
  | _ => (refuse 400 "copy mode is not providerPush", w)
  end.

(** The record of what was done outside only grows, and the pending pushes
    and the requests that have a copy event stay. *)
Definition extends (w w' : World) : Prop :=
  pendingPush w' = pendingPush w /\
  (exists l, posts w' = posts w ++ l) /\
  (forall id, is_Some (CopyEvents.events (copyEvents w) !! id) ->
              is_Some (CopyEvents.events (copyEvents w') !! id)).

(** Nothing of the worker's own state changes, and nothing is uploaded. *)
Definition quiet (w w' : World) : Prop :=
  pendingPush w' = pendingPush w /\ posts w' = posts w /\ copyEvents w' = copyEvents w.

(** The signature of the envelope recovers the operator address configured
    for its clinic, up to the case of the letters. *)
Definition signed_by_operator (envelope : ProviderPushEnvelope) : Prop :=
  exists rid exp op a,
    requestId envelope = Some rid /\ expiresAt envelope = Some exp /\
    providerSignerAddresses !! Js.trim (clinicId envelope) = Some op /\
    verifyMessage
      (signing_message (Js.trim (clinicId envelope)) rid exp (instances envelope))
      (signature envelope) = Resolved a /\
    Js.toLowerCase a = Js.toLowerCase op.

(** Every check of [handleProviderPush] lets the envelope through. *)
Definition passes (envelope : ProviderPushEnvelope) (w : World)
    (rid exp : Z) (pending : PendingPushEntry) (rd : Gateway.ReqData) : Prop :=
  copyMode = providerPush /\
  Js.truthy (Js.trim (clinicId envelope)) = true /\
  requestId envelope = Some rid /\ expiresAt envelope = Some exp /\
  Js.truthy (signature envelope) = true /\
  instances envelope <> [] /\
  pendingPush w !! rid = Some pending /\
  p_providerId pending = Js.trim (clinicId envelope) /\
  (exists op, providerSignerAddresses !! Js.trim (clinicId envelope) = Some op /\
              Js.truthy op = true) /\
  signed_by_operator envelope /\
  nowSec <= exp /\
  reqs rid = Resolved rd /\ Gateway.r_status rd < 2 /\
  is_Some requesterCfg.

(** The world in which the transfer of an accepted envelope starts. *)
Definition copying (envelope : ProviderPushEnvelope) (rid : Z) (w : World) : World :=
  on_events (CopyEvents.update rid
               (CopyEvents.MkUpdate (Some (Z.of_nat (length (instances envelope))))
                  None None (Some CopyEvents.copying) None None)) w.
End Worker.
End Push.

(** ** The polling loop of the orchestrator ([main]) *)

Module Orchestrator.
(** An event returned by [queryFilter]: the id it carries as a number, or
    [None] when that number is not finite. *)
Definition Event : Type := option Z.

(** One callback of [setInterval]: the events it still has to look at and
    the request whose workflow it is awaiting, if any. *)
Record Task : Type := MkTask { queue : list Event; running : option Z }.

Record State : Type := MkState {
  processed : gset Z;     (* the [processed] set *)
  begun : list Z;         (* the requests whose workflow was begun, in order *)
  tasks : list Task
}.

Definition init : State := MkState ∅ [] [].

(** The head of the loop body: the two [continue] guards, then
    [processed.add(id)] and the workflow. The result tells whether the
    workflow of the event is begun. *)
Definition accept_event (ev : Event) (seen : gset Z) : gset Z * option Z :=
  match ev with
  | None => (seen, None)
  | Some id =>
      if decide (id ∈ seen) then (seen, None)
      else ({[id]} ∪ seen, Some id)
  end.

(** A task that is not awaiting anything takes its next event. *)
Definition advance (i : nat) (s : State) : option State :=
  match tasks s !! i with
  | Some (MkTask (ev :: rest) None) =>
      let '(seen, go) := accept_event ev (processed s) in
      Some (MkState seen
              (match go with Some id => begun s ++ [id] | None => begun s end)
              (<[i := MkTask rest go]> (tasks s)))
  | _ => None
  end.

(** The workflow awaited by a task ends, in success or in failure. *)
Definition finish (i : nat) (s : State) : option State :=
  match tasks s !! i with
  | Some (MkTask q (Some _)) =>
      Some (MkState (processed s) (begun s) (<[i := MkTask q None]> (tasks s)))
  | _ => None
  end.

(** The timer fires and the query returns [events]. *)
Definition fire (events : list Event) (s : State) : State :=
  MkState (processed s) (begun s) (tasks s ++ [MkTask events None]).

(** The callbacks are asynchronous: a later one may start while an earlier
    one still awaits a workflow, and they proceed in any order. *)
Inductive step : State -> State -> Prop :=
  | step_fire events s : step s (fire events s)
  | step_advance i s s' : advance i s = Some s' -> step s s'
  | step_finish i s s' : finish i s = Some s' -> step s s'.

Inductive reachable : State -> Prop :=
  | reach_init : reachable init
  | reach_step s s' : reachable s -> step s s' -> reachable s'.

(** What the loop keeps true: no workflow is begun twice, and a request
    whose workflow was begun is in the [processed] set. *)
Definition dispatch_inv (s : State) : Prop :=
  NoDup (begun s) /\
  forall id, id ∈ begun s -> id ∈ processed s.


End Orchestrator.

(** ** The audit log ([AuditLogger]) *)

Module AuditLogger.
Import Json.

Definition hex_byte (c : ascii) : string :=
  let n := nat_of_ascii c in
  String (hex_digit (n / 16)) (String (hex_digit (n mod 16)) "").

(** [buffer.toString("hex")]. *)
Fixpoint hex (bytes : string) : string :=
  match bytes with
  | EmptyString => EmptyString
  | String c r => hex_byte c +:+ hex r
  end.

(** [Buffer.from(s, "hex")]: pairs of digits up to the first pair that is
    not hexadecimal. *)
Fixpoint unhex (s : string) : string :=
  match s with
  | String a (String b r) =>
      match hex_val a, hex_val b with
      | Some x, Some y => String (ascii_of_nat (16 * x + y)) (unhex r)
      | _, _ => EmptyString
      end
  | _ => EmptyString
  end.

(** Truthiness of a parsed value. *)
Definition truthy (v : json) : bool :=
  match v with
  | JNull => false
  | JBool b => b
  | JNum z => negb (z =? 0)
  | JStr s => Js.truthy s
  | JArr _ | JObj _ => true
  end.

Definition field_truthy (k : string) (v : json) : bool :=
  match get k v with Some x => truthy x | None => false end.

(** [lines.join] of a file written line by line: every line is followed
    by a line feed. *)
Fixpoint unlines (ls : list string) : string :=
  match ls with
  | [] => ""
  | l :: ls' => l +:+ String "010" (unlines ls')
  end.

(** Whether a text has a line feed, and whether it has a character that is
    not blank. *)
Fixpoint has_lf (s : string) : bool :=
  match s with
  | EmptyString => false
  | String c r => Ascii.eqb c "010" || has_lf r
  end.

Fixpoint has_ink (s : string) : bool :=
  match s with
  | EmptyString => false
  | String c r => negb (Ascii.is_space c) || has_ink r
  end.

(** Every byte is read back from its two hexadecimal digits, and no escape
    sequence has a line feed. *)
Definition hex_ok : bool :=
  forallb (fun c => String.eqb (unhex (hex_byte c +:+ "")) (String c "")
                    && negb (has_lf (escape_char c)))
          all_ascii.

(** The files of the log directory, by path. *)
Abbreviation Fs := (gmap string string).

Section Logger.
(** [fileURLToPath(this.fileUrl)]. *)
Variable basePath : string.
(** The 32 bytes of [audit.encryptionKey], when it is configured. *)
Variable encryptionKey : option string.
(** AES-256-GCM: the ciphertext and the authentication tag of a plaintext
    under a key and a nonce, and the decryption, which throws when the
    tag does not verify. *)
Variable gcm_encrypt : string -> string -> string -> string * string.
Variable gcm_decrypt : string -> string -> string -> string -> outcome string string.
(** [JSON.parse]; [None] when it throws. *)
Variable JSON_parse : string -> option json.

Definition envelope (iv tag encrypted : string) : json :=
  JObj [("v", JNum 1); ("iv", JStr (hex iv)); ("tag", JStr (hex tag));
        ("data", JStr encrypted)].

(** The line that [log] writes for [entry]; [iv] is [randomBytes(16)]. *)
Definition serialise (entry : json) (iv : string) : string :=
  let serialised := stringify entry in
  match encryptionKey with
  | Some key =>
      let '(ciphertext, authTag) := gcm_encrypt key iv serialised in
      stringify (envelope iv authTag (hex ciphertext))
  | None => serialised
  end.

Definition backup (i : nat) : string := basePath +:+ "." +:+ pretty i.

(** [rename(a, b)], ignoring a missing source. *)
Definition rename (a b : string) (fs : Fs) : Fs :=
  match fs !! a with
  | Some content => <[b := content]> (delete a fs)
  | None => fs
  end.

Definition rotateIfNeeded (fs : Fs) : Fs :=
  match fs !! basePath with
  | None => fs
  | Some content =>
      if 10 * 1024 * 1024 <? Z.of_nat (String.length content) then
        let fs0 := delete (backup 5) fs in
        let fs1 := fold_left (fun f i => rename (backup i) (backup (S i)) f)
                             [4; 3; 2; 1]%nat fs0 in
        rename basePath (backup 1) fs1
      else fs
  end.

(** Whether the next [log] rotates the file first. *)
Definition rotates (fs : Fs) : bool :=
  match fs !! basePath with
  | Some content => 10 * 1024 * 1024 <? Z.of_nat (String.length content)
  | None => false
  end.

(** [appendFile(path, text)]. *)
Definition appendFile (path text : string) (fs : Fs) : Fs :=
  <[path := default "" (fs !! path) +:+ text]> fs.

Definition log (entry : json) (iv : string) (fs : Fs) : Fs :=
  appendFile basePath (serialise entry iv +:+ String "010" "") (rotateIfNeeded fs).

Definition is_envelope (parsed : json) : bool :=
  match get "v" parsed with
  | Some (JNum 1) =>
      field_truthy "iv" parsed && field_truthy "tag" parsed
      && field_truthy "data" parsed
      && match encryptionKey with Some _ => true | None => false end
  | _ => false
  end.

(** The body of the [map] over the lines; [JNull] is the [null] that the
    final [filter] drops. *)
Definition read_line (line : string) : json :=
  match JSON_parse line with
  | None => JNull
  | Some parsed =>
      if is_envelope parsed then
        match encryptionKey, get "iv" parsed, get "tag" parsed, get "data" parsed with
        | Some key, Some (JStr iv), Some (JStr tag), Some (JStr data) =>
            match gcm_decrypt key (unhex iv) (unhex tag) (unhex data) with
            | Resolved decrypted => default JNull (JSON_parse decrypted)
            | Rejected _ => JNull
            end
        | _, _, _, _ => JNull
        end
      else parsed
  end.

Definition not_null (v : json) : bool :=
  match v with JNull => false | _ => true end.

Definition read (limit : Z) (fs : Fs) : list json :=
  match fs !! basePath with
  | None => []
  | Some content =>
      let lines := filter (fun line => Js.truthy (Js.trim line))
                          (Js.split "010" content) in
      filter not_null (map read_line (Js.slice0 limit (rev lines)))
  end.
End Logger.
End AuditLogger.

(** ** A small deployment for closed examples *)

Module Demo.
(** A stand-in digest without collisions: the input itself after [0x]. Any
    function serves where only equality of digests matters. *)
Definition digest (bs : list Byte.byte) : string := "0x" +:+ string_of_list_byte bs.

Definition clinics : list (string * Gateway.ClinicCfg) :=
  [("clinic-a", Gateway.MkClinic Gateway.provider (Some "0xAbCd000000000000000000000000000000000001"));
   ("clinic-b", Gateway.MkClinic Gateway.requester None)].

Definition key_b : string := digest (toUtf8Bytes "clinic-b").
Definition key_a : string := digest (toUtf8Bytes "clinic-a").

Definition zero32 : string :=
  "0x0000000000000000000000000000000000000000000000000000000000000000".

(** Request 5 is still REQUESTED, request 7 is PATIENT_APPROVED; no other
    id was ever created, so the ledger returns the zero record. *)
Definition ledger (id : Z) : outcome Gateway.ReqData string :=
  if id =? 5 then Resolved (Gateway.MkReq 5 "0xPatient5" key_a key_b 0)
  else if id =? 7 then Resolved (Gateway.MkReq 7 "0xPatient7" key_a key_b 1)
  else Resolved (Gateway.MkReq 0 "0x0000000000000000000000000000000000000000"
                   zero32 zero32 0).

Definition viewer : Auth.Principal :=
  Auth.MkPrincipal "alice" ["requester.viewer"] None.
Definition clinic_user : Auth.Principal :=
  Auth.MkPrincipal "bob" ["provider.push"] (Some "clinic-a").
Definition admin : Auth.Principal :=
  Auth.MkPrincipal "root" ["worker.admin"] None.

Definition jwt : Auth.JwtAuth :=
  Auth.MkJwtAuth (fun token =>
    if String.eqb token "viewer.jwt" then Resolved viewer
    else if String.eqb token "clinic-a.jwt" then Resolved clinic_user
    else if String.eqb token "admin.jwt" then Resolved admin
    else Rejected (401, "JWT signature verification failed")).

Definition orthanc (call : Gateway.UpstreamCall)
  : outcome Gateway.UpstreamResponse Gateway.UpstreamError :=
  Resolved (Gateway.MkUp 200 "[]").

Definition qs (ps : list (string * string)) : string :=
  Js.join "&" (map (fun kv => fst kv +:+ "=" +:+ snd kv) ps).

Definition get (path : string) (query : list (string * string)) (token : string)
  : Gateway.Request :=
  Gateway.MkRequest "GET" path query (Some ("Bearer " +:+ token)) None None
                    (Some "127.0.0.1").

Definition put (path token : string) : Gateway.Request :=
  Gateway.MkRequest "PUT" path [] (Some ("Bearer " +:+ token)) None None
                    (Some "127.0.0.1").

Definition delete (path token : string) : Gateway.Request :=
  Gateway.MkRequest "DELETE" path [] (Some ("Bearer " +:+ token)) None None
                    (Some "127.0.0.1").

Definition node_a : Gateway.DicomNodeConfig :=
  Gateway.MkNode "clinic-a" (Gateway.MkEndpoint "http://pacs-a/dicom-web" None)
                 (Gateway.MkEndpoint "http://pacs-a/dicom-web" None).

Definition body_a : Gateway.ClinicBody :=
  Gateway.MkBody "clinic-a" (Some (Gateway.MkEndpoint "http://new-pacs-a/dicom-web" None))
                 (Some (Gateway.MkEndpoint "http://new-pacs-a/dicom-web" None)).

Definition store : gmap string Gateway.DicomNodeConfig := {[ "clinic-a" := node_a ]}.

Definition secure (audit : bool) : Gateway.Request -> Gateway.Result :=
  Gateway.handle_secure digest Js.NumberOfDecimal ledger (fun _ => None) clinics
    (Some orthanc) audit (Some jwt) "2026-01-01T00:00:00.000Z" qs.
(** A toy signature scheme: a signature names its signer and the message it
    was made for, and recovers another address on any other message. *)
Definition sign (address message : string) : string := address +:+ "#" +:+ message.

Definition verifyMessage (message sig : string) : outcome string string :=
  match Js.split "#" sig with
  | [address; signed] =>
      if String.eqb signed message then Resolved address
      else Resolved "0x000000000000000000000000000000000000dEaD"
  | _ => Rejected "invalid signature"
  end.

Definition compare (a b : string) : Z :=
  match String.compare a b with Lt => -1 | Eq => 0 | Gt => 1 end.

Definition operator_a : string := "0xAbCd000000000000000000000000000000000001".

Definition signers : gmap string string := {[ "clinic-a" := operator_a ]}.

Definition mock_signer : Push.SignerClient :=
  Push.MkSigner (String.eqb "clinic-a")
    (fun _ _ => Resolved (Push.MkFulfilled (Some "0xmock18f") None)).


Definition idle : Push.World :=
  Push.MkWorld ∅ (CopyEvents.empty 50) [] [] [] 0.

(** Request 7 was approved and waits for the push of clinic-a. *)
Definition waiting : Push.World :=
  Push.await_push 7 (Some "clinic-a") "0xPatient7" "0xPatient7" idle.

Definition scan : list PushUtils.ProviderPushInstance :=
  [PushUtils.MkInstance "1.2.840.2" (Some "1.2.1") (Some "1.2.1.1") "RElDTQ==";
   PushUtils.MkInstance "1.2.840.1" (Some "1.2.1") (Some "1.2.1.1") "RElDTTI="].

Definition envelope_by (signer : string) (expiresAt : Z)
    (instances : list PushUtils.ProviderPushInstance) : PushUtils.ProviderPushEnvelope :=
  PushUtils.MkEnvelope "clinic-a" (Some 7) (Some expiresAt) instances
    (sign signer (Push.signing_message digest compare "clinic-a" 7 expiresAt instances)).

(** The worker in push mode at second 1000: the imaging server takes every
    upload, [ledger] answers the status check and the status read after the
    confirmation is [after]. *)
Definition push (ledger : Z -> outcome Gateway.ReqData string)
    (requester : option Gateway.HttpEndpoint) (signer : Push.SignerClient)
  : PushUtils.ProviderPushEnvelope -> Push.World -> Push.ProviderPushResult * Push.World :=
  Push.handleProviderPush digest compare verifyMessage Push.providerPush signers 1000
    ledger requester None None (fun s => s) (fun _ => Resolved tt) (Some signer)
    1500 20 (fun _ => Resolved 2).





Definition entry7 : Push.PendingPushEntry :=
  Push.MkPending 7 "clinic-a" "0xPatient7" "0xPatient7".

(** A toy cipher in the place of AES-256-GCM: the ciphertext flips the
    lowest bit of every byte, and the tag is sixteen bytes that name the key
    and the nonce by their lengths. *)
Definition flip (c : ascii) : ascii :=
  match c with Ascii b0 b1 b2 b3 b4 b5 b6 b7 => Ascii (negb b0) b1 b2 b3 b4 b5 b6 b7 end.

Fixpoint mask (s : string) : string :=
  match s with
  | EmptyString => EmptyString
  | String c r => String (flip c) (mask r)
  end.

Definition tag_of (key iv : string) : string :=
  String (ascii_of_nat (String.length key)) (String (ascii_of_nat (String.length iv))
    "toy-gcm-tag-00").

Definition gcm_encrypt (key iv plaintext : string) : string * string :=
  (mask plaintext, tag_of key iv).

Definition gcm_decrypt (key iv tag ciphertext : string) : outcome string string :=
  if String.eqb tag (tag_of key iv) then Resolved (mask ciphertext)
  else Rejected "Unsupported state or unable to authenticate data".

Definition key32 : string := "0123456789abcdef0123456789abcdef".
Definition nonce : string := "fedcba9876543210".
Definition log_path : string := "/var/log/gateway-audit.jsonl".

(** The entry of a refused request, as the gateway logs it. *)
Definition refusal : list (string * Json.json) :=
  [("timestamp", Json.JStr "2026-01-01T00:00:00.000Z"); ("method", Json.JStr "GET");
   ("path", Json.JStr "/secure/5/dicom-web/studies");
   ("forwardPath", Json.JStr "/secure/5/dicom-web/studies");
   ("requestId", Json.JNum 5); ("patientAddress", Json.JStr "");
   ("patientId", Json.JStr ""); ("status", Json.JNum 403);
   ("error", Json.JStr "request is not approved"); ("subject", Json.JStr "alice");
   ("roles", Json.JArr [Json.JStr "requester.viewer"]);
   ("clientIp", Json.JStr "127.0.0.1")].

(** A log that already has one plain line. *)
Definition old_line : string := Json.stringify (Json.JObj [("status", Json.JNum 200)]).
Definition disk : gmap string string := {[ log_path := AuditLogger.unlines [old_line] ]}.

Definition requester_pacs : option Gateway.HttpEndpoint :=
  Some (Gateway.MkEndpoint "http://localhost:8043" None).

(** A step that fails twice and then succeeds, with three attempts and a
    backoff of one second. *)
Definition flaky (i : nat) : outcome Z string :=
  if (i <? 2)%nat then Rejected "ECONNRESET"%string else Resolved 204.


(** Request 7 is seen by a first callback; while its workflow is awaited a
    second callback sees 7 again together with 8. *)
Definition overlapping : Orchestrator.State :=
  Orchestrator.MkState {[8; 7]} [7; 8]
    [Orchestrator.MkTask [] (Some 7); Orchestrator.MkTask [] (Some 8)].

End Demo.
(** * Theorems *)

(** ** [performWithRetry] *)

Section RetryFacts.
Context {T E : Type}.
Variable behaviour : nat -> outcome T E.
Variables attempts backoffMs : Z.

Local Abbreviation loop := (Retry.scripted_loop behaviour attempts backoffMs).

Lemma loop_calls_le n a le t :
  (Retry.calls (snd (loop n a le t)) <= Retry.calls t + n)%nat.
Proof.
  revert a le t. induction n as [|n IH]; intros a le t; simpl; [lia|].
  destruct (behaviour (Retry.calls t)) as [v|e]; simpl; [lia|].
  etransitivity; [apply IH|].
  destruct (a <? attempts); simpl; lia.
Qed.

(** [m] failing invocations followed by a success, all inside the budget. *)
Lemma loop_succeeds_after m : forall n a le c ws v,
  (m < n)%nat ->
  a + Z.of_nat n = attempts + 1 ->
  (forall j, (j < m)%nat -> Retry.fails (behaviour (c + j))) ->
  behaviour (c + m) = Resolved v ->
  loop n a le (Retry.MkTrace c ws) =
    (Resolved v,
     Retry.MkTrace (S (c + m))
       (ws ++ map (fun j => backoffMs * 2 ^ (a - 1 + Z.of_nat j)) (seq 0 m))).
Proof.
  induction m as [|m IH]; intros n a le c ws v Hn Ha Hf Hs.
  - destruct n as [|n]; [lia|]. simpl.
    rewrite Nat.add_0_r in Hs. rewrite Hs. simpl.
    by rewrite app_nil_r, Nat.add_0_r.
  - destruct n as [|n]; [lia|]. simpl.
    pose proof (Hf 0%nat ltac:(lia)) as H0. rewrite Nat.add_0_r in H0.
    destruct (behaviour c) as [?|e]; [done|]. simpl.
    assert ((a <? attempts) = true) as -> by (apply Z.ltb_lt; lia).
    unfold Retry.scripted_sleep; simpl.
    rewrite (IH n (a + 1) (Some e) (S c) (ws ++ [backoffMs * 2 ^ (a - 1)]) v).
    + f_equal. f_equal; [lia|].
      rewrite <- app_assoc. f_equal. simpl. f_equal.
      * by rewrite Z.add_0_r.
      * rewrite <- seq_shift, map_map. apply map_ext. intros j.
        do 2 f_equal. lia.
    + lia.
    + lia.
    + intros j Hj. replace (S c + j)%nat with (c + S j)%nat by lia.
      apply Hf. lia.
    + by replace (S c + m)%nat with (c + S m)%nat by lia.
Qed.

(** Every invocation of the budget fails: the last error comes back. *)
Lemma loop_exhausted n : forall a le c ws,
  (forall j, (j < n)%nat -> Retry.fails (behaviour (c + j))) ->
  exists ws',
    loop n a le (Retry.MkTrace c ws) =
      (Rejected
         (match n with
          | O => le
          | S n' =>
              match behaviour (c + n') with
              | Rejected e => Some e
              | Resolved _ => le
              end
          end),
       Retry.MkTrace (c + n) ws').
Proof.
  induction n as [|n IH]; intros a le c ws Hf.
  - exists ws. simpl. by rewrite Nat.add_0_r.
  - simpl.
    pose proof (Hf 0%nat ltac:(lia)) as H0. rewrite Nat.add_0_r in H0.
    destruct (behaviour c) as [?|e] eqn:Hc; [done|]. simpl.
    set (w2 := if a <? attempts then _ else _).
    assert (exists ws2, w2 = Retry.MkTrace (S c) ws2) as [ws2 ->].
    { unfold w2. destruct (a <? attempts); eauto. }
    destruct (IH (a + 1) (Some e) (S c) ws2) as [ws' ->].
    { intros j Hj. replace (S c + j)%nat with (c + S j)%nat by lia.
      apply Hf. lia. }
    exists ws'. f_equal; [|f_equal; lia].
    destruct n as [|n'].
    + by rewrite Nat.add_0_r, Hc.
    + replace (S c + n')%nat with (c + S n')%nat by lia.
      pose proof (Hf (S n') ltac:(lia)) as Hl.
      by destruct (behaviour (c + S n')).
Qed.

Lemma total_backoffs k :
  Retry.total (Retry.backoffs backoffMs k) =
    backoffMs * (2 ^ Z.of_nat (k - 1) - 1).
Proof.
  unfold Retry.backoffs. generalize (k - 1)%nat as m. clear k.
  induction m as [|m IH]; [simpl; lia|].
  rewrite seq_S, map_app. unfold Retry.total in *.
  rewrite fold_right_app. simpl.
  assert (Hgen : forall (l : list Z) x,
    fold_right Z.add x l = fold_right Z.add 0 l + x).
  { induction l as [|y l IHl]; intros x; simpl; [lia|]. rewrite IHl. lia. }
  rewrite Hgen, IH. rewrite Nat2Z.inj_succ, Z.pow_succ_r by lia. lia.
Qed.

(** C8. [performWithRetry] calls [fn] at most [attempts] times. When the
    first [k-1] calls fail and call [k <= attempts] succeeds, the result
    is that success, [fn] was called [k] times and the waits inserted
    before call [k] are [backoffMs * 2^(i-1)] for [i = 1..k-1], in that
    order, so that their sum is [backoffMs * (2^(k-1) - 1)]; two failures
    and a success on the third attempt give a success after
    [backoffMs + 2 * backoffMs]. When all [attempts] calls fail the error
    of the last call is thrown. *)
Theorem performWithRetry_spec :
  0 <= attempts ->
  let r := Retry.run behaviour attempts backoffMs in
  Z.of_nat (Retry.calls (snd r)) <= attempts /\
  (forall (k : nat) (v : T),
      (1 <= k)%nat -> Z.of_nat k <= attempts ->
      (forall i, (i < k - 1)%nat -> Retry.fails (behaviour i)) ->
      behaviour (k - 1)%nat = Resolved v ->
      fst r = Resolved v /\
      Retry.calls (snd r) = k /\
      Retry.waits (snd r) = Retry.backoffs backoffMs k /\
      Retry.total (Retry.waits (snd r)) =
        backoffMs * (2 ^ Z.of_nat (k - 1) - 1)) /\
  (forall v : T,
      3 <= attempts ->
      Retry.fails (behaviour 0%nat) -> Retry.fails (behaviour 1%nat) ->
      behaviour 2%nat = Resolved v ->
      fst r = Resolved v /\
      Retry.total (Retry.waits (snd r)) = backoffMs + 2 * backoffMs) /\
  (1 <= attempts ->
   (forall i, Z.of_nat i < attempts -> Retry.fails (behaviour i)) ->
   exists e,
     behaviour (Z.to_nat attempts - 1)%nat = Rejected e /\
     fst r = Rejected (Some e) /\
     Z.of_nat (Retry.calls (snd r)) = attempts).
Proof.
  intros Hpos r.
  assert (Hk : forall (k : nat) (v : T),
      (1 <= k)%nat -> Z.of_nat k <= attempts ->
      (forall i, (i < k - 1)%nat -> Retry.fails (behaviour i)) ->
      behaviour (k - 1)%nat = Resolved v ->
      r = (Resolved v, Retry.MkTrace k (Retry.backoffs backoffMs k))).
  { intros k v Hk1 Hk2 Hf Hs. unfold r.
    change (Retry.run behaviour attempts backoffMs)
      with (loop (Z.to_nat attempts) 1 None (Retry.MkTrace 0 [])).
    rewrite (loop_succeeds_after (k - 1) _ 1 None 0%nat [] v); try done; try lia.
    - f_equal. simpl. unfold Retry.backoffs.
      replace (S (k - 1)) with k by lia. reflexivity. }
  split; [|split; [|split]].
  - unfold r.
    change (Retry.run behaviour attempts backoffMs)
      with (loop (Z.to_nat attempts) 1 None Retry.start).
    pose proof (loop_calls_le (Z.to_nat attempts) 1 None Retry.start) as H.
    simpl in H. lia.
  - intros k v Hk1 Hk2 Hf Hs. rewrite (Hk k v) by done. simpl.
    repeat split; try done. apply total_backoffs.
  - intros v H3 Hf0 Hf1 Hs.
    rewrite (Hk 3%nat v); try done; try lia.
    + simpl. split; [done|]. unfold Retry.total. simpl. lia.
    + intros [|[|i]] Hi; simpl; try done. lia.
  - intros H1 Hf. unfold r.
    change (Retry.run behaviour attempts backoffMs)
      with (loop (Z.to_nat attempts) 1 None (Retry.MkTrace 0 [])).
    destruct (loop_exhausted (Z.to_nat attempts) 1 None 0%nat []) as [ws' Hl].
    { intros j Hj. simpl. apply Hf. lia. }
    rewrite Hl. simpl.
    destruct (Z.to_nat attempts) as [|n'] eqn:Hn; [lia|].
    simpl. rewrite Nat.sub_0_r.
    pose proof (Hf n' ltac:(lia)) as Hlast.
    destruct (behaviour n') as [?|e]; [done|].
    exists e. repeat split; try done. lia.
Qed.
End RetryFacts.

Lemma performWithRetry_spec_witness :
  0 <= 3 /\
  fst (Retry.run Demo.flaky 3 1000) = Resolved 204 /\
  Retry.waits (snd (Retry.run Demo.flaky 3 1000)) = [1000; 2000] /\
  Retry.total (Retry.waits (snd (Retry.run Demo.flaky 3 1000))) = 1000 + 2 * 1000.
Proof.
  assert (H0 : 0 <= 3) by lia.
  pose proof (performWithRetry_spec Demo.flaky 3 1000 H0) as (_ & Hk & H3 & _).
  assert (Hf : forall i, (i < 3 - 1)%nat -> Retry.fails (Demo.flaky i)).
  { intros [|[|i]] Hi; simpl; try exact I. simpl in Hi. lia. }
  destruct (Hk 3%nat 204 ltac:(lia) ltac:(lia) Hf eq_refl) as (Hr & _ & Hw & _).
  destruct (H3 204 ltac:(lia) I I eq_refl) as [_ Ht].
  split; [exact H0|]. split; [exact Hr|]. split; [exact Hw|exact Ht].
Defined.

(** ** Manifest hash *)

Lemma manifest_sort_perm (l l' : list string) :
  l ≡ₚ l' -> Manifest.sort l = Manifest.sort l'.
Proof.
  intros Hp. unfold Manifest.sort.
  apply (Sorted_unique String.le).
  - apply Sorted_merge_sort; apply _.
  - apply Sorted_merge_sort; apply _.
  - by rewrite !merge_sort_Permutation.
Qed.

(** C7. [buildManifestHash] gives the same hash for every reordering of
    each of its two lists; in particular for [(success = [B, A],
    failed = [C])] and [(success = [A, B], failed = [C])]. *)
Theorem buildManifestHash_perm
    (keccak256 : list Byte.byte -> string)
    (success success' failed failed' : list string) :
  success ≡ₚ success' -> failed ≡ₚ failed' ->
  Manifest.buildManifestHash keccak256 success failed =
    Manifest.buildManifestHash keccak256 success' failed' /\
  Manifest.buildManifestHash keccak256 ["B"; "A"] ["C"] =
    Manifest.buildManifestHash keccak256 ["A"; "B"] ["C"].
Proof.
  intros Hs Hf. unfold Manifest.buildManifestHash, Manifest.payload. split.
  - by rewrite (manifest_sort_perm _ _ Hs), (manifest_sort_perm _ _ Hf).
  - reflexivity.
Qed.

Lemma buildManifestHash_perm_witness :
  ["1.2.840.3"; "1.2.840.1"; "1.2.840.2"] ≡ₚ ["1.2.840.1"; "1.2.840.2"; "1.2.840.3"] /\
  ["1.2.840.9"; "1.2.840.7"] ≡ₚ ["1.2.840.7"; "1.2.840.9"] /\
  Manifest.buildManifestHash Demo.digest
      ["1.2.840.3"; "1.2.840.1"; "1.2.840.2"] ["1.2.840.9"; "1.2.840.7"] =
    Manifest.buildManifestHash Demo.digest
      ["1.2.840.1"; "1.2.840.2"; "1.2.840.3"] ["1.2.840.7"; "1.2.840.9"].
Proof.
  assert (H1 : ["1.2.840.3"; "1.2.840.1"; "1.2.840.2"]
               ≡ₚ ["1.2.840.1"; "1.2.840.2"; "1.2.840.3"]).
  { apply (Permutation_app_comm ["1.2.840.3"] ["1.2.840.1"; "1.2.840.2"]). }
  assert (H2 : ["1.2.840.9"; "1.2.840.7"] ≡ₚ ["1.2.840.7"; "1.2.840.9"])
    by apply perm_swap.
  split; [exact H1|]. split; [exact H2|].
  exact (proj1 (buildManifestHash_perm Demo.digest _ _ _ _ H1 H2)).
Defined.

(** ** The polling loop *)

Lemma accept_event_spec ev seen seen' go :
  Orchestrator.accept_event ev seen = (seen', go) ->
  seen ⊆ seen' /\
  match go with
  | Some id => (id ∉ seen) /\ (id ∈ seen')
  | None => True
  end.
Proof.
  unfold Orchestrator.accept_event. destruct ev as [id|].
  - destruct (decide (id ∈ seen)); intros [= <- <-]; set_solver.
  - intros [= <- <-]. set_solver.
Qed.

Lemma dispatch_inv_step s s' :
  Orchestrator.step s s' -> Orchestrator.dispatch_inv s -> Orchestrator.dispatch_inv s'.
Proof.
  intros Hstep [Hnd Hin]. destruct Hstep as [events s|i s s' Hadv|i s s' Hfin].
  - done.
  - unfold Orchestrator.advance in Hadv.
    destruct (Orchestrator.tasks s !! i) as [[[|ev rest] [r|]]|]; try done.
    destruct (Orchestrator.accept_event ev (Orchestrator.processed s)) as [seen go] eqn:Ha.
    injection Hadv as <-. apply accept_event_spec in Ha as [Hsub Hgo].
    split; simpl.
    + destruct go as [id|]; [|done].
      apply NoDup_app. split; [done|]. split; [|apply NoDup_singleton].
      intros x Hx Hx'. apply list_elem_of_singleton in Hx' as ->. destruct Hgo as [Hnot _].
      apply Hnot, Hin, Hx.
    + intros id Hid. destruct go as [id'|].
      * apply elem_of_app in Hid as [Hid| ->%list_elem_of_singleton].
        -- apply Hsub, Hin, Hid.
        -- apply Hgo.
      * apply Hsub, Hin, Hid.
  - unfold Orchestrator.finish in Hfin.
    destruct (Orchestrator.tasks s !! i) as [[q [r|]]|]; try done.
    by injection Hfin as <-.
Qed.

(** C6. Within one process, however the polling callbacks overlap and
    whatever events they are given, the transfer workflow is begun at most
    once for every request id: no id occurs twice among the workflows
    begun. *)
Theorem workflow_at_most_once (s : Orchestrator.State) :
  Orchestrator.reachable s ->
  NoDup (Orchestrator.begun s) /\
  forall id : Z, (length (filter (fun x => x = id) (Orchestrator.begun s)) <= 1)%nat.
Proof.
  intros Hr.
  assert (Hinv : Orchestrator.dispatch_inv s).
  { induction Hr as [|s s' _ IH Hstep].
    - split; [constructor|]. intros id Hid. by apply elem_of_nil in Hid.
    - by apply (dispatch_inv_step s s'). }
  destruct Hinv as [Hnd _]. split; [done|].
  intros id. clear Hr. induction Hnd as [|x l Hx Hnd IH]; simpl; [lia|].
  rewrite filter_cons. destruct (decide (x = id)) as [->|]; [|done].
  simpl. destruct (filter (fun x => x = id) l) as [|y k] eqn:Hf; [simpl; lia|].
  assert (Hy : y ∈ filter (fun x => x = id) l) by (rewrite Hf; left).
  apply list_elem_of_filter in Hy as [-> Hy]. done.
Qed.

Lemma overlapping_reachable : Orchestrator.reachable Demo.overlapping.
Proof.
  pose (s0 := Orchestrator.init).
  pose (s1 := Orchestrator.fire [Some 7] s0).
  assert (H1 : Orchestrator.reachable s1)
    by (eapply Orchestrator.reach_step; [constructor|constructor]).
  destruct (Orchestrator.advance 0 s1) as [s2|] eqn:E2; [|by vm_compute in E2].
  assert (H2 : Orchestrator.reachable s2)
    by (eapply Orchestrator.reach_step; [exact H1|by eapply Orchestrator.step_advance]).
  pose (s3 := Orchestrator.fire [Some 7; Some 8] s2).
  assert (H3 : Orchestrator.reachable s3)
    by (eapply Orchestrator.reach_step; [exact H2|constructor]).
  destruct (Orchestrator.advance 1 s3) as [s4|] eqn:E4;
    [|by subst s3; vm_compute in E2; injection E2 as <-; vm_compute in E4].
  assert (H4 : Orchestrator.reachable s4)
    by (eapply Orchestrator.reach_step; [exact H3|by eapply Orchestrator.step_advance]).
  destruct (Orchestrator.advance 1 s4) as [s5|] eqn:E5.
  2:{ subst s3. vm_compute in E2. injection E2 as <-.
      vm_compute in E4. injection E4 as <-. by vm_compute in E5. }
  assert (H5 : Orchestrator.reachable s5)
    by (eapply Orchestrator.reach_step; [exact H4|by eapply Orchestrator.step_advance]).
  replace Demo.overlapping with s5; [exact H5|].
  subst s3. vm_compute in E2. injection E2 as <-.
  vm_compute in E4. injection E4 as <-.
  vm_compute in E5. injection E5 as <-. reflexivity.
Defined.

Lemma workflow_at_most_once_witness :
  Orchestrator.reachable Demo.overlapping /\
  NoDup (Orchestrator.begun Demo.overlapping) /\
  (length (filter (fun x : Z => x = 7%Z) (Orchestrator.begun Demo.overlapping)) <= 1)%nat.
Proof.
  split; [exact overlapping_reachable|].
  destruct (workflow_at_most_once Demo.overlapping overlapping_reachable) as [Hnd Hc].
  split; [exact Hnd|exact (Hc 7)].
Defined.

(** ** Authentication and the clinic configuration routes *)

(** With an authenticator, [requireAuth] for the role [worker.admin] lets
    through only a principal that has this role. *)
Lemma requireAuth_admin_only header a pr :
  Auth.requireAuth header (Some a) ["worker.admin"] = Auth.AuthOk pr ->
  exists p, pr = Some p /\ Auth.includes "worker.admin" (Auth.roles p) = true.
Proof.
  unfold Auth.requireAuth.
  destruct (Auth.verifyHeader header) as [token|[st msg]]; [|done].
  destruct (Auth.verifyToken a token) as [p|[st msg]]; [|done].
  destruct (negb (Js.truthy (Auth.subject p))); [done|].
  simpl. rewrite orb_false_r.
  destruct (Auth.includes "worker.admin" (Auth.roles p)) eqn:Hadm; simpl; [|done].
  intros [= <-]. eauto.
Qed.

(** The branch "others can only edit their own clinicId" of
    [PUT /clinics/config] is never taken by an authenticated caller: a
    principal without [worker.admin] is answered 403 by [requireAuth], and
    the store is left as it was, whatever its [clinic_id]. *)
Lemma clinics_put_needs_admin a req body store token p :
  Auth.verifyHeader (Gateway.authorization req) = Resolved token ->
  Auth.verifyToken a token = Resolved p ->
  Js.truthy (Auth.subject p) = true ->
  Auth.includes "worker.admin" (Auth.roles p) = false ->
  Gateway.route_clinics_put (Some a) req body store =
    (Gateway.MkResponse 403 (Gateway.Text "forbidden: insufficient role"), store).
Proof.
  intros Hh Ht Hs Hr. unfold Gateway.route_clinics_put, Auth.requireAuth.
  rewrite Hh, Ht, Hs. simpl. by rewrite Hr.
Qed.

(** C3. A [PUT /clinics/config] and a [DELETE /clinics/config/clinic-a] with
    a valid token whose [clinic_id] is [clinic-a], the clinic addressed, but
    without the role [worker.admin], are refused with 403 and change
    nothing, although the handler means to let a caller edit its own
    clinic; the same requests from an administrator go through. *)
Theorem clinics_self_edit_refused :
  Auth.clinicId Demo.clinic_user = Some (Gateway.b_clinicId Demo.body_a) /\
  Gateway.route_clinics_put (Some Demo.jwt)
      (Demo.put "/clinics/config" "clinic-a.jwt") (Resolved Demo.body_a) Demo.store =
    (Gateway.MkResponse 403 (Gateway.Text "forbidden: insufficient role"), Demo.store) /\
  Gateway.route_clinics_delete (Some Demo.jwt) Resolved
      (Demo.delete "/clinics/config/clinic-a" "clinic-a.jwt") Demo.store =
    (Gateway.MkResponse 403 (Gateway.Text "forbidden: insufficient role"), Demo.store) /\
  Gateway.statusCode
    (fst (Gateway.route_clinics_put (Some Demo.jwt)
            (Demo.put "/clinics/config" "admin.jwt") (Resolved Demo.body_a) Demo.store))
    = 200.
Proof. repeat split. Qed.

(** ** The gated proxy *)

Lemma span_digits_app ds rest :
  forallb Gateway.is_digit (list_ascii_of_string ds) = true ->
  match rest with
  | String c _ => Gateway.is_digit c = false
  | EmptyString => True
  end ->
  Gateway.span_digits (ds +:+ rest) = (ds, rest).
Proof.
  intros Hd Hr. induction ds as [|c ds IH].
  - change ("" +:+ rest) with rest. destruct rest as [|c r]; [done|].
    simpl. by rewrite Hr.
  - change (String c ds +:+ rest) with (String c (ds +:+ rest)).
    simpl in Hd. apply andb_true_iff in Hd as [Hc Hd].
    simpl. rewrite Hc, (IH Hd). done.
Qed.

Lemma match_id_path_digits ds rest :
  Gateway.all_digits ds = true -> Gateway.path_rest rest = true ->
  Gateway.match_id_path (String "/" (ds +:+ rest)) =
    Some (ds, match rest with EmptyString => None | _ => Some rest end).
Proof.
  intros Hd Hr. unfold Gateway.all_digits in Hd.
  apply andb_true_iff in Hd as [Hne Hd].
  unfold Gateway.match_id_path. rewrite span_digits_app; [|done|].
  - destruct ds as [|c ds]; [done|].
    destruct rest as [|c' r]; [done|].
    simpl in Hr. apply andb_true_iff in Hr as [Hc Hr].
    apply Ascii.eqb_eq in Hc as ->.
    apply negb_true_iff in Hr. by rewrite Hr.
  - destruct rest as [|c' r]; [done|].
    simpl in Hr. apply andb_true_iff in Hr as [Hc _].
    by apply Ascii.eqb_eq in Hc as ->.
Qed.

(** A path [/secure/{digits}{rest}] without a [requestId] in the query: the
    gateway reads the digits as the request id and forwards the rest. *)
Lemma locate_path req ds rest :
  Js.truthy (default "" (Gateway.params_get "requestId" (Gateway.searchParams req))) = false ->
  Gateway.pathname req = "/secure/" +:+ ds +:+ rest ->
  Gateway.all_digits ds = true -> Gateway.path_rest rest = true ->
  Gateway.locate req =
    (Some ds, match rest with EmptyString => "/" | _ => rest end).
Proof.
  intros Hq Hp Hd Hr. unfold Gateway.locate. rewrite Hp.
  change (Gateway.strip_secure ("/secure/" +:+ ds +:+ rest))
    with (String "/" (ds +:+ rest)).
  rewrite match_id_path_digits by done. rewrite Hq. simpl.
  by destruct rest.
Qed.

Section GatewayFacts.
Variable keccak256 : list Byte.byte -> string.
Variable Number : string -> option Z.
Variable reqs : Z -> outcome Gateway.ReqData string.
Variable lookup : string -> option string.
Variable clinics : list (string * Gateway.ClinicCfg).
Variable upstream :
  Gateway.UpstreamCall -> outcome Gateway.UpstreamResponse Gateway.UpstreamError.
Variable audit : bool.
Variable auth : option Auth.JwtAuth.
Variable now : string.
Variable searchToString : list (string * string) -> string.

Local Abbreviation handle :=
  (Gateway.handle_secure keccak256 Number reqs lookup clinics (Some upstream)
     audit auth now searchToString).

Lemma handle_get req :
  Gateway.method req = "GET" ->
  handle req =
    Gateway.route_secure keccak256 Number reqs lookup clinics audit auth now
      searchToString upstream req.
Proof. intros Hm. unfold Gateway.handle_secure. by rewrite Hm. Qed.

Lemma allowedRequester_true key :
  (exists c cfg, (c, cfg) ∈ clinics /\ Gateway.role cfg = Gateway.requester /\
                 Gateway.clinicKey keccak256 c = key) ->
  existsb (fun entry =>
             match Gateway.role (snd entry) with
             | Gateway.requester =>
                 String.eqb (Js.toLowerCase (Gateway.clinicKey keccak256 (fst entry)))
                            (Js.toLowerCase key)
             | Gateway.provider => false
             end) clinics = true.
Proof.
  intros (c & cfg & Hin & Hrole & Hkey). apply existsb_exists.
  exists (c, cfg). split; [by apply list_elem_of_In|].
  simpl. rewrite Hrole, Hkey. apply String.eqb_refl.
Qed.

Lemma forward_path_rest rest :
  Gateway.path_rest rest = true ->
  Gateway.forward_path (match rest with EmptyString => "/" | _ => rest end) =
    match rest with EmptyString => "/" | _ => rest end.
Proof.
  intros Hr. destruct rest as [|c r]; [done|].
  simpl in Hr. apply andb_true_iff in Hr as [Hc _].
  apply Ascii.eqb_eq in Hc as ->. unfold Gateway.forward_path.
  destruct r; done.
Qed.

(** C1, as the code has it. A [GET /secure/{digits}{rest}] that passes the
    viewer check, has no [requestId] in its query and whose digits read as
    the id of a request recorded on the ledger: with status REQUESTED it
    is answered 403 and nothing is forwarded; with status PATIENT_APPROVED
    or later and a requester clinic key that is the key of a configured
    clinic of role requester, exactly one call goes to the destination
    imaging endpoint, for the rest of the path, and its status (or 502
    when it fails) is the answer. *)
Theorem secure_gate req principal ds rest id rd :
  Gateway.method req = "GET" ->
  Auth.requireAuth (Gateway.authorization req) auth ["requester.viewer"]
    = Auth.AuthOk principal ->
  Js.truthy (default "" (Gateway.params_get "requestId" (Gateway.searchParams req)))
    = false ->
  Gateway.pathname req = "/secure/" +:+ ds +:+ rest ->
  Gateway.all_digits ds = true -> Gateway.path_rest rest = true ->
  Number ds = Some id ->
  reqs id = Resolved rd ->
  Gateway.r_id rd <> 0 ->
  (Gateway.r_status rd = 0 ->
     Gateway.statusCode (Gateway.response (handle req)) = 403 /\
     Gateway.forwarded (handle req) = []) /\
  (1 <= Gateway.r_status rd ->
   (exists c cfg, (c, cfg) ∈ clinics /\ Gateway.role cfg = Gateway.requester /\
                  Gateway.clinicKey keccak256 c = Gateway.r_requesterClinicKey rd) ->
   let fwd := match rest with EmptyString => "/" | _ => rest end in
   let call := Gateway.proxy_call searchToString req fwd in
   Gateway.forwarded (handle req) = [call] /\
   Js.startsWith (Gateway.c_url call) fwd = true /\
   match upstream call with
   | Resolved up =>
       Gateway.statusCode (Gateway.response (handle req)) = Gateway.up_status up
   | Rejected _ => Gateway.statusCode (Gateway.response (handle req)) = 502
   end).
Proof.
  intros Hm Hauth Hq Hp Hd Hr Hn Hl Hid.
  rewrite (handle_get req Hm). unfold Gateway.route_secure.
  rewrite Hauth, (locate_path req ds rest Hq Hp Hd Hr).
  assert (Hts : Js.truthy ds = true).
  { unfold Gateway.all_digits in Hd. by apply andb_true_iff in Hd as [? _]. }
  cbv beta iota zeta. cbn [default from_option]. unfold Datatypes.id. rewrite Hts. cbn [negb]. rewrite Hn.
  unfold Gateway.resolveAccessRequest. rewrite Hl.
  assert ((Gateway.r_id rd =? 0) = false) as -> by by apply Z.eqb_neq.
  split.
  - intros ->. done.
  - intros Hst Hclinic.
    set (fwd := match rest with EmptyString => "/" | _ => rest end).
    set (call := Gateway.proxy_call searchToString req fwd).
    assert ((Gateway.r_status rd <? 1) = false) as -> by (apply Z.ltb_ge; lia).
    rewrite (allowedRequester_true _ Hclinic). cbn [negb].
    unfold Gateway.proxy. fold call.
    split; [by destruct (upstream call)|].
    split; [|by destruct (upstream call)].
    unfold call, Gateway.proxy_call. cbn [Gateway.c_url].
    unfold fwd. rewrite (forward_path_rest rest Hr).
    unfold Js.startsWith. clear. generalize (match rest with "" => "/" | _ => rest end).
    intros p. generalize (if Js.truthy
      (searchToString
         (filter (fun kv => negb (String.eqb (fst kv) "requestId"))
            (Gateway.searchParams req)))
      then "?" +:+ searchToString
         (filter (fun kv => negb (String.eqb (fst kv) "requestId"))
            (Gateway.searchParams req)) else "").
    intros q. induction p as [|c p IH]; [by destruct q|].
    change (String c p +:+ q) with (String c (p +:+ q)). simpl.
    destruct (ascii_dec c c); [exact IH|done].
Qed.

Lemma status_of_entry (common tail : list (string * Json.json)) st :
  Json.assoc "status" common = None ->
  Json.assoc "status" (common ++ ("status", Json.JNum st) :: tail) = Some (Json.JNum st).
Proof.
  induction common as [|[k v] common IH]; cbn [app Json.assoc].
  - done.
  - destruct (String.eqb "status" k); [done|exact IH].
Qed.

Lemma auditCommon_no_status req fp id pa pid q principal ip :
  Json.assoc "status"
    (Gateway.auditCommon now req fp id pa pid q principal ip) = None.
Proof.
  unfold Gateway.auditCommon, Gateway.principal_fields.
  destruct q, principal, ip; reflexivity.
Qed.

Lemma denial_entry_status req id st msg principal ip :
  Json.get "status" (Gateway.denial_entry now req id st msg principal ip)
    = Some (Json.JNum st).
Proof.
  unfold Gateway.denial_entry.
  by destruct (Gateway.sanitiseParams _ _).
Qed.

(** C10, as the code has it. With an audit logger configured, a
    [GET /secure/...] that passes the viewer check, carries a request id
    that reads as a finite number and for which the ledger answers
    produces exactly one audit entry, whose status is the status of the
    response: for a refusal by the consent check, for a proxied call and
    for an upstream failure. A request refused by the token check, or for
    a missing or non-numeric request id, produces no entry. *)
Theorem secure_audit_once req :
  Gateway.method req = "GET" ->
  Js.startsWith (Gateway.pathname req) "/secure/" = true ->
  audit = true ->
  (forall principal p fwd id rd,
      Auth.requireAuth (Gateway.authorization req) auth ["requester.viewer"]
        = Auth.AuthOk principal ->
      Gateway.locate req = (Some p, fwd) -> Js.truthy p = true ->
      Number p = Some id -> reqs id = Resolved rd ->
      exists entry,
        Gateway.audited (handle req) = [entry] /\
        Json.get "status" entry =
          Some (Json.JNum (Gateway.statusCode (Gateway.response (handle req))))) /\
  (forall st msg written,
      Auth.requireAuth (Gateway.authorization req) auth ["requester.viewer"]
        = Auth.AuthFailed st msg written ->
      Gateway.statusCode (Gateway.response (handle req)) = st /\
      Gateway.audited (handle req) = []) /\
  (forall principal,
      Auth.requireAuth (Gateway.authorization req) auth ["requester.viewer"]
        = Auth.AuthOk principal ->
      Js.truthy (default "" (fst (Gateway.locate req))) = false \/
      Number (default "" (fst (Gateway.locate req))) = None ->
      Gateway.statusCode (Gateway.response (handle req)) = 400 /\
      Gateway.audited (handle req) = []).
Proof.
  intros Hm _ Ha. rewrite (handle_get req Hm). unfold Gateway.route_secure.
  split; [|split].
  - intros principal p fwd id rd Hauth Hloc Hp Hn Hl.
    rewrite Hauth, Hloc. cbv beta iota zeta. cbn [default from_option].
    unfold Datatypes.id. rewrite Hp. cbn [negb]. rewrite Hn.
    unfold Gateway.resolveAccessRequest. rewrite Hl.
    unfold Gateway.log_entry. rewrite Ha.
    destruct (Gateway.r_id rd =? 0).
    { eexists. split; [reflexivity|]. apply denial_entry_status. }
    destruct (Gateway.r_status rd <? 1).
    { eexists. split; [reflexivity|]. apply denial_entry_status. }
    destruct (existsb _ clinics); cbn [negb].
    + unfold Gateway.proxy, Gateway.log_entry.
      destruct (upstream _) as [up|e]; eexists; (split; [reflexivity|]);
        cbn [Json.get app Gateway.response Gateway.statusCode];
        apply status_of_entry, auditCommon_no_status.
    + eexists. split; [reflexivity|]. apply denial_entry_status.
  - intros st msg written ->. done.
  - intros principal -> Hbad. destruct (Gateway.locate req) as [param fwd].
    simpl in Hbad. destruct Hbad as [Hbad|Hbad].
    + by rewrite Hbad.
    + rewrite Hbad. by destruct (negb _).
Qed.
End GatewayFacts.

(** The deployment of [Demo]: request 7 is approved for the configured
    requester clinic and is proxied, request 5 is not approved and is
    refused. *)
Lemma secure_gate_witness :
  let req7 := Demo.get "/secure/7/dicom-web/studies" [("limit", "5")] "viewer.jwt" in
  let req5 := Demo.get "/secure/5/dicom-web/studies" [] "viewer.jwt" in
  (Gateway.forwarded (Demo.secure true req7) =
     [Gateway.MkCall "/dicom-web/studies?limit=5" Gateway.json_type "application/json"] /\
   Gateway.statusCode (Gateway.response (Demo.secure true req7)) = 200) /\
  (Gateway.statusCode (Gateway.response (Demo.secure true req5)) = 403 /\
   Gateway.forwarded (Demo.secure true req5) = []).
Proof.
  intros req7 req5.
  assert (Hin : exists c cfg, (c, cfg) ∈ Demo.clinics /\
            Gateway.role cfg = Gateway.requester /\
            Gateway.clinicKey Demo.digest c = Demo.key_b).
  { exists "clinic-b", (Gateway.MkClinic Gateway.requester None).
    split; [|done]. right. left. }
  split.
  - destruct (secure_gate Demo.digest Js.NumberOfDecimal Demo.ledger (fun _ => None)
                Demo.clinics Demo.orthanc true (Some Demo.jwt)
                "2026-01-01T00:00:00.000Z" Demo.qs req7 (Some Demo.viewer)
                "7" "/dicom-web/studies" 7
                (Gateway.MkReq 7 "0xPatient7" Demo.key_a Demo.key_b 1)
                eq_refl eq_refl eq_refl eq_refl eq_refl eq_refl eq_refl eq_refl
                ltac:(discriminate)) as [_ H].
    destruct (H ltac:(simpl; lia) Hin) as (Hf & _ & Hs).
    split; [exact Hf|exact Hs].
  - destruct (secure_gate Demo.digest Js.NumberOfDecimal Demo.ledger (fun _ => None)
                Demo.clinics Demo.orthanc true (Some Demo.jwt)
                "2026-01-01T00:00:00.000Z" Demo.qs req5 (Some Demo.viewer)
                "5" "/dicom-web/studies" 5
                (Gateway.MkReq 5 "0xPatient5" Demo.key_a Demo.key_b 0)
                eq_refl eq_refl eq_refl eq_refl eq_refl eq_refl eq_refl eq_refl
                ltac:(discriminate)) as [H _].
    exact (H eq_refl).
Defined.

(** C1 as stated fails on the code. A viewer's [GET /secure/5/...] whose
    query carries [requestId=7] is checked against request 7 and proxied,
    although request 5 of the path is still REQUESTED; and an id that the
    ledger does not know, whose record reads status 0, is answered 404, not
    403. *)
Lemma secure_gate_counterexample :
  let req := Demo.get "/secure/5/dicom-web/studies" [("requestId", "7")] "viewer.jwt" in
  let req9 := Demo.get "/secure/9/dicom-web/studies" [] "viewer.jwt" in
  Auth.requireAuth (Gateway.authorization req) (Some Demo.jwt) ["requester.viewer"]
    = Auth.AuthOk (Some Demo.viewer) /\
  (exists rd, Demo.ledger 5 = Resolved rd /\ Gateway.r_status rd = 0) /\
  Gateway.statusCode (Gateway.response (Demo.secure true req)) = 200 /\
  Gateway.forwarded (Demo.secure true req) =
    [Gateway.MkCall "/5/dicom-web/studies" Gateway.json_type "application/json"] /\
  (exists rd, Demo.ledger 9 = Resolved rd /\ Gateway.r_status rd = 0) /\
  Gateway.statusCode (Gateway.response (Demo.secure true req9)) = 404.
Proof.
  repeat split; try reflexivity; eexists; split; reflexivity.
Qed.

Lemma secure_audit_once_witness :
  let req := Demo.get "/secure/5/dicom-web/studies" [] "viewer.jwt" in
  Gateway.method req = "GET" /\
  exists entry,
    Gateway.audited (Demo.secure true req) = [entry] /\
    Json.get "status" entry = Some (Json.JNum 403).
Proof.
  intros req. split; [reflexivity|].
  destruct (secure_audit_once Demo.digest Js.NumberOfDecimal Demo.ledger (fun _ => None)
              Demo.clinics Demo.orthanc true (Some Demo.jwt)
              "2026-01-01T00:00:00.000Z" Demo.qs req eq_refl eq_refl eq_refl)
    as (H & _ & _).
  exact (H (Some Demo.viewer) "5" "/dicom-web/studies" 5
           (Gateway.MkReq 5 "0xPatient5" Demo.key_a Demo.key_b 0)
           eq_refl eq_refl eq_refl eq_refl eq_refl).
Defined.

(** C10 as stated fails on the code: a request to the proxy with a token
    that does not verify is answered 401, one by a user without the viewer
    role 403, and one without a numeric request id 400, and none of them
    leaves an audit entry. *)
Lemma secure_audit_counterexample :
  let bad := Demo.get "/secure/7/dicom-web/studies" [] "forged.jwt" in
  let norole := Demo.get "/secure/7/dicom-web/studies" [] "clinic-a.jwt" in
  let noid := Demo.get "/secure/studies" [] "viewer.jwt" in
  (Gateway.statusCode (Gateway.response (Demo.secure true bad)) = 401 /\
   Gateway.audited (Demo.secure true bad) = []) /\
  (Gateway.statusCode (Gateway.response (Demo.secure true norole)) = 403 /\
   Gateway.audited (Demo.secure true norole) = []) /\
  (Gateway.statusCode (Gateway.response (Demo.secure true noid)) = 400 /\
   Gateway.audited (Demo.secure true noid) = []).
Proof. repeat split. Qed.

(** ** Copy events *)

Lemma update_keeps id patch s k :
  is_Some (CopyEvents.events s !! k) ->
  is_Some (CopyEvents.events (CopyEvents.update id patch s) !! k).
Proof.
  intros Hk. unfold CopyEvents.update.
  destruct (CopyEvents.events s !! id) as [e|] eqn:He; [|done]. simpl.
  destruct (decide (id = k)) as [->|Hne].
  - rewrite lookup_insert_eq. eauto.
  - by rewrite lookup_insert_ne.
Qed.

Lemma recordFailure_keeps id f s k :
  is_Some (CopyEvents.events s !! k) ->
  is_Some (CopyEvents.events (CopyEvents.recordFailure id f s) !! k).
Proof.
  intros Hk. unfold CopyEvents.recordFailure.
  destruct (CopyEvents.events s !! id) as [e|] eqn:He; [|done]. simpl.
  destruct (decide (id = k)) as [->|Hne].
  - rewrite lookup_insert_eq. eauto.
  - by rewrite lookup_insert_ne.
Qed.

Lemma fail_keeps id msg s k :
  is_Some (CopyEvents.events s !! k) ->
  is_Some (CopyEvents.events (CopyEvents.fail id msg s) !! k).
Proof.
  intros Hk. unfold CopyEvents.fail.
  destruct (CopyEvents.events s !! id) as [e|] eqn:He; [|done]. simpl.
  destruct (decide (id = k)) as [->|Hne].
  - rewrite lookup_insert_eq. eauto.
  - by rewrite lookup_insert_ne.
Qed.

(** [fail] marks the copy event of the request, when there is one. *)
Lemma fail_marks_error id msg s :
  CopyEvents.status_of id (CopyEvents.fail id msg s) =
    match CopyEvents.events s !! id with
    | Some _ => Some CopyEvents.error
    | None => None
    end.
Proof.
  unfold CopyEvents.status_of, CopyEvents.fail.
  destruct (CopyEvents.events s !! id) as [e|] eqn:He; simpl.
  - by rewrite lookup_insert_eq.
  - by rewrite He.
Qed.


(** ** The text of a canonical instance list *)

Lemma str_app_assoc (a b c : string) : (a +:+ b) +:+ c = a +:+ (b +:+ c).
Proof.
  induction a as [|x a IH]; [done|].
  change (String x ((a +:+ b) +:+ c) = String x (a +:+ (b +:+ c))). by rewrite IH.
Qed.

Lemma str_app_nil_r (a : string) : a +:+ "" = a.
Proof.
  induction a as [|x a IH]; [done|]. change (String x (a +:+ "") = String x a).
  by rewrite IH.
Qed.

Lemma str_prefix_app (a t : string) : String.prefix a (a +:+ t) = true.
Proof.
  induction a as [|x a IH]; [by destruct t|].
  change (String.prefix (String x a) (String x (a +:+ t)) = true). simpl.
  destruct (ascii_dec x x); [exact IH|done].
Qed.

(** Two ways of cutting one string: one head is a prefix of the other. *)
Lemma str_app_cross (a a' r r' : string) :
  a +:+ r = a' +:+ r' ->
  (exists t, a' = a +:+ t /\ r = t +:+ r') \/ (exists t, a = a' +:+ t /\ r' = t +:+ r).
Proof.
  revert a'. induction a as [|x a IH]; intros a' H.
  - left. by exists a'.
  - destruct a' as [|x' a'].
    + right. by exists (String x a).
    + change (String x (a +:+ r) = String x' (a' +:+ r')) in H.
      injection H as -> H. destruct (IH a' H) as [[t [-> ->]]|[t [-> ->]]].
      * left. by exists t.
      * right. by exists t.
Qed.

Lemma in_all_ascii (c : ascii) : In c Json.all_ascii.
Proof.
  unfold Json.all_ascii. rewrite <- (ascii_nat_embedding c).
  apply in_map, in_seq. pose proof (nat_ascii_bounded c). lia.
Qed.

Lemma escape_code_checked : Json.escape_code_ok = true.
Proof. vm_compute. reflexivity. Qed.

Lemma escape_char_facts (c : ascii) :
  String.prefix (String Json.dquote "") (Json.escape_char c) = false /\
  Json.escape_char c <> "" /\
  forall c', String.prefix (Json.escape_char c) (Json.escape_char c') = true -> c = c'.
Proof.
  pose proof escape_code_checked as H. unfold Json.escape_code_ok in H.
  rewrite forallb_forall in H. specialize (H c (in_all_ascii c)).
  apply andb_true_iff in H as [H H3]. apply andb_true_iff in H as [H1 H2].
  split; [by apply negb_true_iff|]. split.
  - intros Heq. by rewrite Heq in H2.
  - intros c' Hp. rewrite forallb_forall in H3. specialize (H3 c' (in_all_ascii c')).
    rewrite Hp in H3. by apply Ascii.eqb_eq.
Qed.

(** A quoted string can be read back from the front of a text. *)
Lemma escape_inj (s s' r r' : string) :
  Json.escape s +:+ String Json.dquote r = Json.escape s' +:+ String Json.dquote r' ->
  s = s' /\ r = r'.
Proof.
  revert s'. induction s as [|c s IH]; intros s' H.
  - destruct s' as [|c' s'].
    + by injection H as ->.
    + exfalso. change (Json.escape (String c' s'))
        with (Json.escape_char c' +:+ Json.escape s') in H.
      rewrite str_app_assoc in H.
      destruct (escape_char_facts c') as (Hq & Hne & _).
      destruct (Json.escape_char c') as [|x e]; [done|].
      change (String Json.dquote r = String x (e +:+ (Json.escape s' +:+ String Json.dquote r'))) in H.
      injection H as <- _.
      change (String Json.dquote e) with (String Json.dquote "" +:+ e) in Hq.
      by rewrite str_prefix_app in Hq.
  - change (Json.escape (String c s)) with (Json.escape_char c +:+ Json.escape s) in H.
    rewrite str_app_assoc in H.
    destruct s' as [|c' s'].
    + exfalso. destruct (escape_char_facts c) as (Hq & Hne & _).
      destruct (Json.escape_char c) as [|x e]; [done|].
      change (String x (e +:+ (Json.escape s +:+ String Json.dquote r)) = String Json.dquote r') in H.
      injection H as -> _.
      change (String Json.dquote e) with (String Json.dquote "" +:+ e) in Hq.
      by rewrite str_prefix_app in Hq.
    + change (Json.escape (String c' s'))
        with (Json.escape_char c' +:+ Json.escape s') in H.
      rewrite str_app_assoc in H.
      assert (c = c') as <-.
      { destruct (str_app_cross _ _ _ _ H) as [[t [Ht _]]|[t [Ht _]]].
        - destruct (escape_char_facts c) as (_ & _ & Hc). apply Hc.
          rewrite Ht. apply str_prefix_app.
        - destruct (escape_char_facts c') as (_ & _ & Hc). symmetry. apply Hc.
          rewrite Ht. apply str_prefix_app. }
      apply (inj (String.app _)) in H. destruct (IH s' H) as [-> ->]. done.
Qed.

Lemma quote_inj (s s' r r' : string) :
  Json.quote s +:+ r = Json.quote s' +:+ r' -> s = s' /\ r = r'.
Proof.
  unfold Json.quote. intros H.
  change (String Json.dquote ((Json.escape s +:+ String Json.dquote "") +:+ r) =
          String Json.dquote ((Json.escape s' +:+ String Json.dquote "") +:+ r')) in H.
  injection H as H. rewrite !str_app_assoc in H.
  by apply escape_inj in H.
Qed.







(** A stable sort moves two lists with the same keys in the same way. *)
Section SameKeys.
Context {A : Type} (key : A -> string) (localeCompare : string -> string -> Z).

Local Abbreviation cmp := (fun a b : A => localeCompare (key a) (key b)).


End SameKeys.

(** ** Provider push *)

Lemma retry_invariant {W T E} (P : W -> Prop)
    (fn : W -> outcome T E * W) (sleep : Z -> W -> W) attempts backoffMs :
  (forall w, P w -> P (snd (fn w))) ->
  (forall ms w, P w -> P (sleep ms w)) ->
  forall n a le w, P w -> P (snd (Retry.loop fn sleep attempts backoffMs n a le w)).
Proof.
  intros Hfn Hsl. induction n as [|n IH]; intros a le w Hw; simpl; [done|].
  pose proof (Hfn w Hw) as H1. destruct (fn w) as [[v|e] w1]; simpl in *; [done|].
  apply IH. destruct (a <? attempts); auto.
Qed.

Section PushFacts.
Variable keccak256 : list Byte.byte -> string.
Variable localeCompare : string -> string -> Z.
Variable verifyMessage : string -> string -> outcome string string.
Variable copyMode : Push.CopyMode.
Variable providerSignerAddresses : gmap string string.
Variable nowSec : Z.
Variable reqs : Z -> outcome Gateway.ReqData string.
Variable requesterCfg : option Gateway.HttpEndpoint.
Variables maxRetries backoffMs : option Z.
Variable base64 : string -> string.
Variable post_outcome : nat -> outcome unit string.
Variable signerClient : option Push.SignerClient.
Variables fulfillmentPollMs fulfillmentMaxAttempts : Z.
Variable poll_status : nat -> outcome Z string.

Local Abbreviation handleProviderPush :=
  (Push.handleProviderPush keccak256 localeCompare verifyMessage copyMode
     providerSignerAddresses nowSec reqs requesterCfg maxRetries backoffMs base64
     post_outcome signerClient fulfillmentPollMs fulfillmentMaxAttempts poll_status).
Local Abbreviation confirm :=
  (Push.confirm keccak256 signerClient fulfillmentPollMs fulfillmentMaxAttempts
     poll_status).
Local Abbreviation upload_all :=
  (Push.upload_all maxRetries backoffMs base64 post_outcome).
Local Abbreviation signed_by_operator :=
  (Push.signed_by_operator keccak256 localeCompare verifyMessage providerSignerAddresses).
Local Abbreviation passes :=
  (Push.passes keccak256 localeCompare verifyMessage copyMode providerSignerAddresses
     nowSec reqs requesterCfg).

Lemma extends_refl w : Push.extends w w.
Proof. split; [done|]. split; [|done]. exists []. by rewrite app_nil_r. Qed.

Lemma extends_trans w1 w2 w3 :
  Push.extends w1 w2 -> Push.extends w2 w3 -> Push.extends w1 w3.
Proof.
  intros (Hp1 & [l1 Hl1] & He1) (Hp2 & [l2 Hl2] & He2). split; [congruence|].
  split; [|auto]. exists (l1 ++ l2). by rewrite Hl2, Hl1, app_assoc.
Qed.

Lemma extends_on_events f w :
  (forall s id, is_Some (CopyEvents.events s !! id) ->
                is_Some (CopyEvents.events (f s) !! id)) ->
  Push.extends w (Push.on_events f w).
Proof.
  intros Hf. split; [done|]. split; [|by intros id; apply Hf].
  exists []. simpl. by rewrite app_nil_r.
Qed.

Lemma extends_sleep ms w : Push.extends w (Push.sleep ms w).
Proof. split; [done|]. split; [|done]. exists []. simpl. by rewrite app_nil_r. Qed.

Lemma extends_upload buffer w :
  Push.extends w (snd (Push.uploadToOrthanc post_outcome buffer w)).
Proof. split; [done|]. split; [|done]. by exists [buffer]. Qed.

Lemma extends_retry buffer attempts backoff w :
  Push.extends w
    (snd (Retry.performWithRetry (Push.uploadToOrthanc post_outcome buffer)
            Push.sleep attempts backoff w)).
Proof.
  unfold Retry.performWithRetry.
  apply (retry_invariant (Push.extends w)).
  - intros w1 H1. eapply extends_trans; [exact H1|apply extends_upload].
  - intros ms w1 H1. eapply extends_trans; [exact H1|apply extends_sleep].
  - apply extends_refl.
Qed.

Lemma extends_attempt instance w :
  Push.extends w
    (snd (Push.attempt_upload maxRetries backoffMs base64 post_outcome instance w)).
Proof.
  unfold Push.attempt_upload.
  destruct (negb (Js.truthy (PushUtils.data instance))); [apply extends_refl|].
  destruct (negb (Js.truthy (base64 (PushUtils.data instance)))); [apply extends_refl|].
  pose proof (extends_retry (base64 (PushUtils.data instance))
                (default 3 maxRetries) (default 1000 backoffMs) w) as Hr.
  by destruct (Retry.performWithRetry _ _ _ _ w) as [[v|e] w1].
Qed.

Lemma extends_push_instance rid acc instance :
  Push.extends (snd acc)
    (snd (Push.push_instance maxRetries backoffMs base64 post_outcome rid acc instance)).
Proof.
  destruct acc as [[success failed] w]. unfold Push.push_instance.
  destruct (negb (Js.truthy (PushUtils.sop instance))).
  { simpl. eapply extends_trans; apply extends_on_events; intros s id.
    - apply recordFailure_keeps.
    - apply update_keeps. }
  pose proof (extends_attempt instance w) as Ha.
  destruct (Push.attempt_upload _ _ _ _ instance w) as [[[]|msg] w1]; simpl in *.
  - eapply extends_trans; [exact Ha|]. apply extends_on_events.
    intros s id. apply update_keeps.
  - eapply extends_trans; [exact Ha|].
    eapply extends_trans; apply extends_on_events; intros s id.
    + apply recordFailure_keeps.
    + apply update_keeps.
Qed.

Lemma extends_upload_all rid instances w :
  Push.extends w (snd (upload_all rid instances w)).
Proof.
  unfold Push.upload_all.
  change w with (snd (([] : list string), ([] : list string), w)) at 1.
  generalize (([] : list string), ([] : list string), w) as acc.
  induction instances as [|i l IH]; intros acc; simpl; [apply extends_refl|].
  eapply extends_trans; [apply extends_push_instance|apply IH].
Qed.
Lemma quiet_wait n w :
  Push.quiet w
    (snd (Push.wait_loop fulfillmentPollMs fulfillmentMaxAttempts poll_status n w)).
Proof.
  revert w. induction n as [|n IH]; intros w; simpl; [done|].
  destruct (poll_status (Push.polls w)) as [st|e]; [|done].
  destruct (2 <=? st); [done|].
  destruct (IH (Push.sleep fulfillmentPollMs
                  (Push.MkWorld (Push.pendingPush w) (Push.copyEvents w) (Push.posts w)
                     (Push.waits w) (Push.confirmations w) (S (Push.polls w)))))
    as (H1 & H2 & H3).
  unfold Push.quiet. by rewrite H1, H2, H3.
Qed.

Lemma quiet_requestMarkFulfilled providerId payload w :
  Push.quiet w
    (snd (Push.requestMarkFulfilled signerClient fulfillmentPollMs
            fulfillmentMaxAttempts poll_status providerId payload w)).
Proof.
  unfold Push.requestMarkFulfilled. destruct signerClient as [signer|]; [|done].
  destruct (negb (Push.hasSigner signer providerId)); [done|].
  destruct (Push.markFulfilled signer providerId payload) as [res|e]; [|done].
  unfold Push.waitForFulfilledStatus.
  pose proof (quiet_wait (Z.to_nat fulfillmentMaxAttempts)
                (Push.MkWorld (Push.pendingPush w) (Push.copyEvents w) (Push.posts w)
                   (Push.waits w) (Push.confirmations w ++ [payload]) (Push.polls w)))
    as Hq.
  by destruct (Push.wait_loop _ _ _ _ _) as [[[]|e] w2].
Qed.

(** The confirmation step: the answer is 200 or 502, the pending push of the
    request is gone in both cases, nothing more is uploaded, and on 502 the
    copy event of the request, when the store still has it, is in error. *)
Lemma confirm_spec clinic rid pending success failed w2 :
  let out := confirm clinic rid pending (success, failed, w2) in
  Push.pendingPush (snd out) = delete rid (Push.pendingPush w2) /\
  Push.posts (snd out) = Push.posts w2 /\
  (Push.status (fst out) = 200 \/
   Push.status (fst out) = 502 /\
   CopyEvents.status_of rid (Push.copyEvents (snd out)) =
     match CopyEvents.events (Push.copyEvents w2) !! rid with
     | Some _ => Some CopyEvents.error
     | None => None
     end).
Proof.
  unfold Push.confirm.
  match goal with
  | |- context [Push.requestMarkFulfilled ?a ?b ?c ?d ?e ?f ?g] =>
      pose proof (quiet_requestMarkFulfilled e f g) as (Hp & Hposts & Hev);
      destruct (Push.requestMarkFulfilled a b c d e f g) as [[res|msg] w3]
  end; simpl in *.
  - rewrite Hp, Hposts. auto.
  - rewrite Hp, Hposts. split; [done|]. split; [done|]. right. split; [done|].
    by rewrite fail_marks_error, Hev.
Qed.


(** How [handleProviderPush] can end. *)
Lemma handleProviderPush_cases env w :
  let out := handleProviderPush env w in
  (snd out = w /\
   (Push.status (fst out) = 400 \/ Push.status (fst out) = 403)) \/
  (snd out = w /\ Push.status (fst out) = 409 /\
   exists rid, PushUtils.requestId env = Some rid /\ Push.pendingPush w !! rid = None) \/
  (snd out = w /\ signed_by_operator env /\
   (Push.status (fst out) = 410 \/ Push.status (fst out) = 500)) \/
  (signed_by_operator env /\ Push.status (fst out) = 409 /\
   exists rid rd,
     PushUtils.requestId env = Some rid /\
     reqs rid = Resolved rd /\ 2 <= Gateway.r_status rd /\
     snd out = Push.set_pending (delete rid (Push.pendingPush w)) w) \/
  (exists rid exp pending rd,
     passes env w rid exp pending rd /\
     out = confirm (Js.trim (PushUtils.clinicId env)) rid pending
             (upload_all rid (PushUtils.instances env) (Push.copying env rid w))).
Proof.
  unfold Push.handleProviderPush.
  destruct copyMode eqn:Hmode; try by (left; split; [done|left]).
  destruct (negb (Js.truthy (Js.trim (PushUtils.clinicId env)))) eqn:Hc;
    [by left; split; [done|left]|].
  destruct (PushUtils.requestId env) as [rid|] eqn:Hrid;
    [|by left; split; [done|left]].
  destruct (PushUtils.expiresAt env) as [exp|] eqn:Hexp;
    [|by left; split; [done|left]].
  destruct (negb (Js.truthy (PushUtils.signature env))) eqn:Hsig;
    [by left; split; [done|left]|].
  destruct (PushUtils.instances env) as [|i0 rest] eqn:Hi;
    [by left; split; [done|left]|].
  rewrite <- Hi.
  destruct (Push.pendingPush w !! rid) as [pending|] eqn:Hpend;
    [|by right; left; eauto].
  destruct (negb (String.eqb (Push.p_providerId pending)
                             (Js.trim (PushUtils.clinicId env)))) eqn:Hprov;
    [by left; split; [done|right]|].
  destruct (providerSignerAddresses !! Js.trim (PushUtils.clinicId env))
    as [op|] eqn:Hop; [|by left; split; [done|right]].
  destruct (negb (Js.truthy op)) eqn:Hopt; [by left; split; [done|right]|].
  destruct (verifyMessage _ (PushUtils.signature env)) as [a|msg] eqn:Hver;
    [|by left; split; [done|left]].
  destruct (negb (String.eqb (Js.toLowerCase a) (Js.toLowerCase op))) eqn:Hcmp;
    [by left; split; [done|right]|].
  assert (Hsigned : signed_by_operator env).
  { exists rid, exp, op, a. repeat split; try done.
    apply negb_false_iff in Hcmp. by apply String.eqb_eq. }
  destruct (exp <? nowSec) eqn:Hexpd; [by right; right; left; auto|].
  destruct (reqs rid) as [rd|msg] eqn:Hreq; [|by right; right; left; auto].
  destruct (2 <=? Gateway.r_status rd) eqn:Hst.
  { right; right; right; left. split; [done|]. split; [done|].
    exists rid, rd. repeat split; try done. by apply Z.leb_le. }
  destruct requesterCfg as [rc|] eqn:Hrc; [|by right; right; left; auto].
  right; right; right; right. exists rid, exp, pending, rd. split; [|done].
  apply negb_false_iff in Hc, Hsig, Hprov, Hopt.
  apply String.eqb_eq in Hprov. apply Z.ltb_ge in Hexpd. apply Z.leb_gt in Hst.
  unfold Push.passes. rewrite Hi. repeat split; eauto.
Qed.


(** C4, as the code has it. For an envelope whose request has a pending
    push, the entry is deleted when the answer is 200 or 502, that is when
    the confirmation was attempted, and when it is 409, the ledger showing
    the request already fulfilled; with every other answer (400, 403, 410,
    500) the pending pushes are left as they were. *)
Theorem pending_consumed env w rid pending :
  PushUtils.requestId env = Some rid ->
  Push.pendingPush w !! rid = Some pending ->
  let out := handleProviderPush env w in
  (Push.status (fst out) = 200 \/ Push.status (fst out) = 502 \/
   Push.status (fst out) = 409 ->
     Push.pendingPush (snd out) = delete rid (Push.pendingPush w)) /\
  (Push.status (fst out) = 400 \/ Push.status (fst out) = 403 \/
   Push.status (fst out) = 410 \/ Push.status (fst out) = 500 ->
     Push.pendingPush (snd out) = Push.pendingPush w) /\
  (Push.status (fst out) = 200 \/ Push.status (fst out) = 502 \/
   Push.status (fst out) = 409 \/ Push.status (fst out) = 400 \/
   Push.status (fst out) = 403 \/ Push.status (fst out) = 410 \/
   Push.status (fst out) = 500).
Proof.
  intros Hrid Hpend out.
  pose proof (handleProviderPush_cases env w) as Hc. cbv zeta in Hc. fold out in Hc.
  destruct Hc as [[Hw Hs]|[[Hw (Hs & r & Hr & Hnone)]|[[Hw [_ Hs]]
        |[[_ (Hs & r & rd & Hr & _ & _ & Hw)]|(r & e & p & rd & Hp & Hout)]]]].
  - rewrite Hw. repeat split; intros; try done; lia.
  - rewrite Hrid in Hr. injection Hr as <-. congruence.
  - rewrite Hw. repeat split; intros; try done; lia.
  - rewrite Hrid in Hr. injection Hr as <-. rewrite Hw.
    repeat split; intros; try done; try lia.
  - assert (Hr : r = rid).
    { destruct Hp as (_ & _ & Hr & _). rewrite Hrid in Hr. by injection Hr. }
    subst r.
    destruct (upload_all rid (PushUtils.instances env) (Push.copying env rid w))
      as [[success failed] w2] eqn:Hup.
    pose proof (extends_upload_all rid (PushUtils.instances env)
                  (Push.copying env rid w)) as (Hp2 & _ & _).
    rewrite Hup in Hp2. simpl in Hp2.
    destruct (confirm_spec (Js.trim (PushUtils.clinicId env)) rid p success failed w2)
      as (Hdel & _ & Hst).
    rewrite <- Hout in Hdel, Hst. rewrite Hp2 in Hdel.
    repeat split; intros; try done; destruct Hst as [Hst|[Hst _]]; try lia; auto.
Qed.





End PushFacts.

(** *** The theorems on the deployment of [Demo] *)




(** C4 as stated fails on the code: an envelope for the provider recorded in
    the pending push of request 7, with a signature that is not the
    operator's, is answered 403, and one whose expiry has passed 410, and
    the pending push is still there afterwards. *)
Lemma pending_consumed_counterexample :
  let forged :=
    Demo.envelope_by "0x1111111111111111111111111111111111111111" 2000 Demo.scan in
  let expired := Demo.envelope_by Demo.operator_a 900 Demo.scan in
  let push := Demo.push Demo.ledger Demo.requester_pacs Demo.mock_signer in
  Push.pendingPush Demo.waiting !! 7 = Some Demo.entry7 /\
  PushUtils.clinicId forged = Push.p_providerId Demo.entry7 /\
  Push.status (fst (push forged Demo.waiting)) = 403 /\
  Push.pendingPush (snd (push forged Demo.waiting)) !! 7 = Some Demo.entry7 /\
  Push.status (fst (push expired Demo.waiting)) = 410 /\
  Push.pendingPush (snd (push expired Demo.waiting)) !! 7 = Some Demo.entry7.
Proof. vm_compute. repeat split. Qed.

Lemma pending_consumed_witness :
  let env := Demo.envelope_by Demo.operator_a 2000 Demo.scan in
  let out := Demo.push Demo.ledger Demo.requester_pacs Demo.mock_signer env Demo.waiting in
  PushUtils.requestId env = Some 7 /\
  Push.pendingPush Demo.waiting !! 7 = Some Demo.entry7 /\
  Push.status (fst out) = 200 /\
  Push.pendingPush (snd out) !! 7 = None.
Proof.
  intros env out.
  assert (Hpend : Push.pendingPush Demo.waiting !! 7 = Some Demo.entry7) by reflexivity.
  assert (Hst : Push.status (fst out) = 200) by reflexivity.
  split; [reflexivity|]. split; [exact Hpend|]. split; [exact Hst|].
  destruct (pending_consumed Demo.digest Demo.compare Demo.verifyMessage
              Push.providerPush Demo.signers 1000 Demo.ledger Demo.requester_pacs
              None None (fun s => s) (fun _ => Resolved tt) (Some Demo.mock_signer)
              1500 20 (fun _ => Resolved 2) env Demo.waiting 7 Demo.entry7
              eq_refl Hpend) as (Hdel & _ & _).
  pose proof (Hdel (or_introl Hst)) as Hd.
  change (Push.pendingPush (snd out) = delete 7 (Push.pendingPush Demo.waiting)) in Hd.
  rewrite Hd. apply lookup_delete_eq.
Defined.



(** ** The audit log *)

Lemma has_lf_app (a b : string) : AuditLogger.has_lf (a +:+ b) = AuditLogger.has_lf a || AuditLogger.has_lf b.
Proof.
  induction a as [|c a IH]; [done|].
  change (AuditLogger.has_lf (String c (a +:+ b)) = AuditLogger.has_lf (String c a) || AuditLogger.has_lf b).
  simpl. by rewrite IH, orb_assoc.
Qed.

Lemma hex_checked : AuditLogger.hex_ok = true.
Proof. vm_compute. reflexivity. Qed.

Lemma hex_char_facts (c : ascii) :
  AuditLogger.unhex (AuditLogger.hex_byte c +:+ "") = String c "" /\
  AuditLogger.has_lf (Json.escape_char c) = false.
Proof.
  pose proof hex_checked as H. unfold AuditLogger.hex_ok in H.
  rewrite forallb_forall in H. specialize (H c (in_all_ascii c)).
  apply andb_true_iff in H as [H1 H2]. split.
  - by apply String.eqb_eq.
  - by apply negb_true_iff.
Qed.

(** [Buffer.from(b.toString("hex"), "hex")] is [b]. *)
Lemma unhex_hex (b : string) : AuditLogger.unhex (AuditLogger.hex b) = b.
Proof.
  induction b as [|c b IH]; [done|].
  destruct (hex_char_facts c) as [Hc _].
  change (AuditLogger.hex (String c b)) with (AuditLogger.hex_byte c +:+ AuditLogger.hex b).
  unfold AuditLogger.hex_byte in *.
  set (x := Json.hex_digit (nat_of_ascii c / 16)) in *.
  set (y := Json.hex_digit (nat_of_ascii c mod 16)) in *.
  change (String x (String y "") +:+ AuditLogger.hex b) with (String x (String y (AuditLogger.hex b))).
  change (String x (String y "") +:+ "") with (String x (String y "")) in Hc.
  simpl in *. destruct (Json.hex_val x), (Json.hex_val y); try done.
  injection Hc as ->. by rewrite IH.
Qed.

Lemma hex_truthy (b : string) : b <> "" -> Js.truthy (AuditLogger.hex b) = true.
Proof. destruct b as [|c b]; [done|]. intros _. reflexivity. Qed.

Lemma escape_no_lf (s : string) : AuditLogger.has_lf (Json.escape s) = false.
Proof.
  induction s as [|c s IH]; [done|].
  change (Json.escape (String c s)) with (Json.escape_char c +:+ Json.escape s).
  rewrite has_lf_app, IH. by destruct (hex_char_facts c) as [_ ->].
Qed.

Lemma quote_no_lf (s : string) : AuditLogger.has_lf (Json.quote s) = false.
Proof.
  unfold Json.quote.
  change (AuditLogger.has_lf (String Json.dquote (Json.escape s +:+ String Json.dquote "")))
    with (AuditLogger.has_lf (Json.escape s +:+ String Json.dquote "")).
  by rewrite has_lf_app, escape_no_lf.
Qed.

Lemma pretty_N_go_no_lf (x : N) (s : string) :
  AuditLogger.has_lf s = false -> AuditLogger.has_lf (pretty_N_go x s) = false.
Proof.
  revert s. induction (N.lt_wf_0 x) as [x _ IH]; intros s Hs.
  assert (x = 0 \/ 0 < x)%N as [->|Hx] by lia.
  - by rewrite pretty_N_go_0.
  - rewrite pretty_N_go_step by done. apply IH; [by apply N.div_lt|].
    simpl. rewrite Hs, orb_false_r. unfold pretty_N_char. by repeat case_match.
Qed.

Lemma pretty_Z_no_lf (z : Z) : AuditLogger.has_lf (pretty z) = false.
Proof.
  assert (HN : forall p, AuditLogger.has_lf (pretty (Npos p)) = false).
  { intros p. unfold pretty, pretty_N. case_decide; [done|]. by apply pretty_N_go_no_lf. }
  destruct z as [|p|p]; [done|apply HN|].
  change (pretty (Z.neg p)) with ("-" +:+ pretty (Npos p)).
  by rewrite has_lf_app, HN.
Qed.

(** [JSON.stringify] writes no line feed. *)
Lemma stringify_no_lf : forall v : Json.json, AuditLogger.has_lf (Json.stringify v) = false.
Proof.
  fix IH 1. intros [| [|] |z|s|l|l].
  - reflexivity.
  - reflexivity.
  - reflexivity.
  - apply pretty_Z_no_lf.
  - apply quote_no_lf.
  - cbn [Json.stringify]. rewrite !has_lf_app. simpl. rewrite orb_false_r.
    induction l as [|x [|y l] IHl]; [reflexivity|apply IH|].
    change (Json.members Json.stringify (x :: y :: l))
      with (Json.stringify x +:+ "," +:+ Json.members Json.stringify (y :: l)).
    rewrite !has_lf_app, IH, IHl. reflexivity.
  - cbn [Json.stringify]. rewrite !has_lf_app. simpl. rewrite orb_false_r.
    induction l as [|[k x] [|y l] IHl]; [reflexivity| |].
    + cbn [Json.members fst snd]. rewrite !has_lf_app, quote_no_lf, IH. reflexivity.
    + set (print := fun kv : string * Json.json =>
                      Json.quote (fst kv) +:+ ":" +:+ Json.stringify (snd kv)) in *.
      change (Json.members print ((k, x) :: y :: l))
        with (print (k, x) +:+ "," +:+ Json.members print (y :: l)).
      rewrite !has_lf_app, IHl. unfold print. cbn [fst snd].
      rewrite !has_lf_app, quote_no_lf, IH. reflexivity.
Qed.

Lemma split_line (l rest : string) :
  AuditLogger.has_lf l = false ->
  Js.split "010" (l +:+ String "010" rest) = l :: Js.split "010" rest.
Proof.
  induction l as [|c l IH]; intros Hl; [done|].
  change (String c l +:+ String "010" rest) with (String c (l +:+ String "010" rest)).
  simpl in Hl. apply orb_false_iff in Hl as [Hc Hl].
  cbn [Js.split]. by rewrite Hc, (IH Hl).
Qed.

Lemma split_unlines (ls : list string) :
  Forall (fun l => AuditLogger.has_lf l = false) ls ->
  Js.split "010" (AuditLogger.unlines ls) = ls ++ [""].
Proof.
  induction 1 as [|l ls Hl _ IH]; [done|].
  cbn [AuditLogger.unlines]. by rewrite (split_line l _ Hl), IH.
Qed.

Lemma has_ink_trimStart (s : string) : AuditLogger.has_ink (Js.trimStart s) = AuditLogger.has_ink s.
Proof.
  induction s as [|c s IH]; [done|]. simpl.
  destruct (Ascii.is_space c) eqn:Hc; [exact IH|]. simpl. by rewrite Hc.
Qed.

Lemma has_ink_rev_app (a b : string) :
  AuditLogger.has_ink (String.rev_app a b) = AuditLogger.has_ink a || AuditLogger.has_ink b.
Proof.
  revert b. induction a as [|c a IH]; intros b; [done|].
  simpl. rewrite IH. simpl. destruct (Ascii.is_space c), (AuditLogger.has_ink a); done.
Qed.

(** A line with a character that is not blank passes the filter of [read]. *)
Lemma trim_ink (s : string) : AuditLogger.has_ink s = true -> Js.truthy (Js.trim s) = true.
Proof.
  intros Hs. assert (Hi : AuditLogger.has_ink (Js.trim s) = true).
  { unfold Js.trim, String.rev.
    by rewrite has_ink_rev_app, has_ink_trimStart, has_ink_rev_app, has_ink_trimStart,
      Hs. }
  by destruct (Js.trim s).
Qed.

Lemma object_line_kept (l : list (string * Json.json)) :
  Js.truthy (Js.trim (Json.stringify (Json.JObj l))) = true.
Proof. apply trim_ink. reflexivity. Qed.

Lemma str_app_neq (s t : string) : t <> "" -> s +:+ t <> s.
Proof.
  intros Ht H. rewrite <- (str_app_nil_r s) in H at 2.
  by apply (inj (String.app s)) in H.
Qed.

Section AuditFacts.
Variable basePath : string.
Variable gcm_encrypt : string -> string -> string -> string * string.
Variable gcm_decrypt : string -> string -> string -> string -> outcome string string.
Variable JSON_parse : string -> option Json.json.

Lemma backup_not_base (i : nat) : AuditLogger.backup basePath i <> basePath.
Proof.
  unfold AuditLogger.backup. apply str_app_neq.
  change ("." +:+ pretty i) with (String "." (pretty i)). done.
Qed.

Lemma rename_other (a b p : string) (fs : gmap string string) :
  a <> p -> b <> p -> AuditLogger.rename a b fs !! p = fs !! p.
Proof.
  intros Ha Hb. unfold AuditLogger.rename. destruct (fs !! a); [|done].
  by rewrite lookup_insert_ne, lookup_delete_ne.
Qed.

(** Rotation moves the file away when it is over the threshold and leaves
    it alone otherwise. *)
Lemma rotateIfNeeded_base (fs : gmap string string) :
  AuditLogger.rotateIfNeeded basePath fs !! basePath =
    if AuditLogger.rotates basePath fs then None else fs !! basePath.
Proof.
  unfold AuditLogger.rotateIfNeeded, AuditLogger.rotates.
  destruct (fs !! basePath) as [content|] eqn:Hc; [|by rewrite Hc].
  destruct (10 * 1024 * 1024 <? Z.of_nat (String.length content)); [|done].
  cbn [fold_left]. unfold AuditLogger.rename at 1.
  rewrite !rename_other by apply backup_not_base.
  rewrite lookup_delete_ne by apply backup_not_base. rewrite Hc.
  rewrite lookup_insert_ne by apply backup_not_base. apply lookup_delete_eq.
Qed.
Lemma unlines_app (a b : list string) :
  AuditLogger.unlines (a ++ b) = AuditLogger.unlines a +:+ AuditLogger.unlines b.
Proof.
  induction a as [|l a IH]; [done|]. cbn [app AuditLogger.unlines].
  rewrite IH, str_app_assoc. reflexivity.
Qed.

Lemma is_envelope_plain (parsed : Json.json) : AuditLogger.is_envelope None parsed = false.
Proof. unfold AuditLogger.is_envelope. repeat case_match; try done. apply andb_false_r. Qed.

Lemma read_line_plain (line : string) (entry : Json.json) :
  JSON_parse line = Some entry ->
  AuditLogger.read_line None gcm_decrypt JSON_parse line = entry.
Proof. intros H. unfold AuditLogger.read_line. by rewrite H, is_envelope_plain. Qed.

Lemma read_line_envelope (k iv tag ct plaintext line : string) (entry : Json.json) :
  iv <> "" -> tag <> "" -> ct <> "" ->
  JSON_parse line = Some (AuditLogger.envelope iv tag (AuditLogger.hex ct)) ->
  gcm_decrypt k iv tag ct = Resolved plaintext ->
  JSON_parse plaintext = Some entry ->
  AuditLogger.read_line (Some k) gcm_decrypt JSON_parse line = entry.
Proof.
  intros Hiv Htag Hct Hline Hdec Hplain. unfold AuditLogger.read_line. rewrite Hline.
  assert (AuditLogger.is_envelope (Some k) (AuditLogger.envelope iv tag (AuditLogger.hex ct)) = true) as ->.
  { unfold AuditLogger.is_envelope, AuditLogger.envelope, AuditLogger.field_truthy. cbn.
    by rewrite !hex_truthy. }
  unfold AuditLogger.envelope. cbn [Json.get Json.assoc String.eqb Ascii.eqb Bool.eqb].
  by rewrite !unhex_hex, Hdec, Hplain.
Qed.

(** The text of an envelope is not the text of an object whose first
    property is not [v]. *)
Lemma envelope_not_plain (iv tag data k0 : string) (x : Json.json)
    (rest : list (string * Json.json)) :
  k0 <> "v" ->
  Json.stringify (AuditLogger.envelope iv tag data) <> Json.stringify (Json.JObj ((k0, x) :: rest)).
Proof.
  intros Hk H. unfold AuditLogger.envelope in H. cbn [Json.stringify] in H.
  apply (inj (String.app "{")) in H.
  destruct rest as [|y rest]; cbn [Json.members fst snd] in H;
    rewrite !str_app_assoc in H; apply quote_inj in H as [H _]; by apply Hk.
Qed.

(** C9. [log] followed by [read] gives back the entry, in both modes. The
    file holds lines written before; the new line is the last one. Without
    a key the line is the JSON text of the entry. With a key it is the JSON
    text of an envelope of the nonce, the authentication tag and the
    ciphertext, each in hexadecimal, and not the text of the entry; [read]
    decrypts it. The cipher is AES-GCM by what is asked of it: tags and
    nonces of sixteen bytes, a ciphertext as long as the plaintext, and a
    decryption that inverts the encryption; [JSON.parse] is asked to read
    back the two texts written. *)
Theorem audit_round_trip (key : option string) (fields : list (string * Json.json))
    (iv : string) (fs : gmap string string) (ls : list string) (limit : Z) :
  let entry := Json.JObj fields in
  let line := AuditLogger.serialise key gcm_encrypt entry iv in
  let fs' := AuditLogger.log basePath key gcm_encrypt entry iv fs in
  default "" (fs !! basePath) = AuditLogger.unlines ls ->
  Forall (fun l => AuditLogger.has_lf l = false) ls ->
  1 <= limit ->
  JSON_parse (Json.stringify entry) = Some entry ->
  (forall k, key = Some k ->
     String.length iv = 16%nat /\
     (forall p, String.length (snd (gcm_encrypt k iv p)) = 16%nat) /\
     (forall p, String.length (fst (gcm_encrypt k iv p)) = String.length p) /\
     (forall p, gcm_decrypt k iv (snd (gcm_encrypt k iv p)) (fst (gcm_encrypt k iv p))
                = Resolved p) /\
     JSON_parse line =
       Some (AuditLogger.envelope iv (snd (gcm_encrypt k iv (Json.stringify entry)))
               (AuditLogger.hex (fst (gcm_encrypt k iv (Json.stringify entry)))))) ->
  fs' !! basePath =
    Some (AuditLogger.unlines ((if AuditLogger.rotates basePath fs then [] else ls) ++ [line])) /\
  (key = None -> line = Json.stringify entry) /\
  (forall k, key = Some k ->
     line = Json.stringify
              (AuditLogger.envelope iv (snd (gcm_encrypt k iv (Json.stringify entry)))
                 (AuditLogger.hex (fst (gcm_encrypt k iv (Json.stringify entry))))) /\
     (forall k0 x rest, fields = (k0, x) :: rest -> k0 <> "v" ->
                        line <> Json.stringify entry)) /\
  head (AuditLogger.read basePath key gcm_decrypt JSON_parse limit fs') = Some entry.
Proof.
  intros entry line fs' Hfile Hls Hlimit Hparse Hcipher.
  set (kept := if AuditLogger.rotates basePath fs then [] else ls).
  assert (Hline : forall k, key = Some k ->
            line = Json.stringify
                     (AuditLogger.envelope iv (snd (gcm_encrypt k iv (Json.stringify entry)))
                        (AuditLogger.hex (fst (gcm_encrypt k iv (Json.stringify entry)))))).
  { intros k ->. unfold line, AuditLogger.serialise.
    by destruct (gcm_encrypt k iv (Json.stringify entry)). }
  assert (Hplain : key = None -> line = Json.stringify entry) by by intros ->.
  assert (Hdisk : fs' !! basePath = Some (AuditLogger.unlines (kept ++ [line]))).
  { unfold fs', AuditLogger.log, AuditLogger.appendFile. rewrite lookup_insert_eq.
    rewrite rotateIfNeeded_base, unlines_app. f_equal. f_equal.
    unfold kept. destruct (AuditLogger.rotates basePath fs); [done|exact Hfile]. }
  assert (Hnolf : AuditLogger.has_lf line = false).
  { destruct key as [k|]; [rewrite (Hline k eq_refl)|rewrite (Hplain eq_refl)];
      apply stringify_no_lf. }
  assert (Hink : Js.truthy (Js.trim line) = true).
  { destruct key as [k|]; [rewrite (Hline k eq_refl)|rewrite (Hplain eq_refl)];
      apply object_line_kept. }
  assert (Hread : AuditLogger.read_line key gcm_decrypt JSON_parse line = entry).
  { destruct key as [k|].
    - destruct (Hcipher k eq_refl) as (Hiv & Htag & Hct & Hdec & Henv).
      apply (read_line_envelope k iv (snd (gcm_encrypt k iv (Json.stringify entry)))
               (fst (gcm_encrypt k iv (Json.stringify entry))) (Json.stringify entry));
        try done.
      + intros ->. done.
      + intros H0. specialize (Htag (Json.stringify entry)). by rewrite H0 in Htag.
      + intros H0. specialize (Hct (Json.stringify entry)). by rewrite H0 in Hct.
    - rewrite (Hplain eq_refl). by apply read_line_plain. }
  split; [exact Hdisk|]. split; [exact Hplain|]. split.
  - intros k Hk. split; [by apply Hline|].
    intros k0 x rest -> Hk0. rewrite (Hline k Hk). by apply envelope_not_plain.
  - unfold AuditLogger.read. rewrite Hdisk.
    rewrite split_unlines.
    2:{ apply Forall_app. split; [|by constructor].
        unfold kept. by destruct (AuditLogger.rotates basePath fs). }
    rewrite !filter_app, (filter_cons_True _ line), filter_nil by by rewrite Hink.
    rewrite (filter_cons_False _ ""), filter_nil, app_nil_r by by intros [].
    rewrite rev_app_distr. cbn [rev app]. unfold Js.slice0.
    assert ((0 <=? limit) = true) as -> by (apply Z.leb_le; lia).
    destruct (Z.to_nat limit) as [|n] eqn:Hn; [lia|].
    cbn [take map]. rewrite Hread. by rewrite filter_cons_True.
Qed.
End AuditFacts.

Lemma mask_length (p : string) : String.length (Demo.mask p) = String.length p.
Proof. induction p as [|c p IH]; [done|]. simpl. by rewrite IH. Qed.

Lemma mask_mask (p : string) : Demo.mask (Demo.mask p) = p.
Proof.
  induction p as [|c p IH]; [done|]. simpl. rewrite IH.
  by destruct c as [[] b1 b2 b3 b4 b5 b6 b7].
Qed.

(** The entry of a refused request, logged after an older line and read
    back, with the toy cipher and without a key. *)
Lemma audit_round_trip_witness :
  let entry := Json.JObj Demo.refusal in
  let sealed :=
    AuditLogger.log Demo.log_path (Some Demo.key32) Demo.gcm_encrypt entry Demo.nonce Demo.disk in
  let plain := AuditLogger.log Demo.log_path None Demo.gcm_encrypt entry Demo.nonce Demo.disk in
  head (AuditLogger.read Demo.log_path (Some Demo.key32) Demo.gcm_decrypt Json.parse 10 sealed)
    = Some entry /\
  sealed !! Demo.log_path <> plain !! Demo.log_path /\
  plain !! Demo.log_path = Some (AuditLogger.unlines [Demo.old_line; Json.stringify entry]) /\
  head (AuditLogger.read Demo.log_path None Demo.gcm_decrypt Json.parse 10 plain) = Some entry.
Proof.
  intros entry sealed plain.
  assert (Hfile : default "" (Demo.disk !! Demo.log_path) = AuditLogger.unlines [Demo.old_line])
    by reflexivity.
  assert (Hls : Forall (fun l => AuditLogger.has_lf l = false) [Demo.old_line])
    by (by repeat constructor).
  assert (Hparse : Json.parse (Json.stringify entry) = Some entry)
    by (vm_compute; reflexivity).
  destruct (audit_round_trip Demo.log_path Demo.gcm_encrypt Demo.gcm_decrypt Json.parse
              (Some Demo.key32) Demo.refusal Demo.nonce Demo.disk [Demo.old_line] 10
              Hfile Hls ltac:(lia) Hparse) as (Hd1 & _ & _ & Hr1).
  { intros k [= <-]. split; [reflexivity|]. split; [reflexivity|].
    split; [intros p; apply mask_length|]. split.
    - intros p. unfold Demo.gcm_decrypt, Demo.gcm_encrypt. cbn [fst snd].
      by rewrite String.eqb_refl, mask_mask.
    - vm_compute. reflexivity. }
  destruct (audit_round_trip Demo.log_path Demo.gcm_encrypt Demo.gcm_decrypt Json.parse
              None Demo.refusal Demo.nonce Demo.disk [Demo.old_line] 10
              Hfile Hls ltac:(lia) Hparse) as (Hd2 & Hp2 & _ & Hr2).
  { intros k [=]. }
  split; [exact Hr1|]. split; [by vm_compute|]. split; [|exact Hr2].
  exact Hd2.
Defined.
